(** * Verification of the coverage-improvement pipeline scripts

    Shallow embedding of the four scripts under [.github/scripts]:
    [analyze_coverage.py], [generate_tests.py], [validate_tests.py] and
    [generate_report.py].

    Conventions of the embedding
    - a Python [str] is a list of Unicode code points ([N]);
    - a Python [int] is a [Z]; the floats of the coverage percentages are
      exact rationals ([Qc]) in the embedding of the scripts, and the two
      computations of the average are given a second time on binary64
      floats ([float_model]), where rounding is part of the model;
    - [sys.exit] and uncaught exceptions are values of [exn];
    - the file system is a finite map from paths to contents. *)

From Stdlib Require Import Ascii String QArith Qcanon Sorted.
From Stdlib Require Qcabs.
From Stdlib Require Import Floats Uint63.
From stdpp Require Import base numbers list option gmap.

Local Open Scope Z_scope.

(** ** Python strings *)

Module py.

(** Code points and strings. *)
Abbreviation char := N (only parsing).
Abbreviation str := (list N) (only parsing).

(** A source literal, character by character. *)
Definition lit (s : string) : str :=
  (fun a => N_of_ascii a) <$> list_ascii_of_string s.

Definition NL : char := 10%N.

Definition len (s : str) : Z := Z.of_nat (length s).

(** [s.startswith(p)] *)
Fixpoint startswith (p s : str) : bool :=
  match p, s with
  | [], _ => true
  | a :: p', b :: s' => (a =? b)%N && startswith p' s'
  | _ :: _, [] => false
  end.

(** [s.endswith(p)] *)
Definition endswith (p s : str) : bool := startswith (rev p) (rev s).

(** Scan of [s.find(sub, start)]: [i] is the index of the head of [s]. *)
Fixpoint find_aux (sub s : str) (i : Z) : Z :=
  if startswith sub s then i
  else match s with
       | [] => -1
       | _ :: s' => find_aux sub s' (i + 1)
       end.

(** [s.find(sub, start)] for [0 <= start]: lowest index [>= start] where
    [sub] occurs, [-1] when there is none. *)
Definition find (sub s : str) (start : Z) : Z :=
  if len s <? start then -1
  else find_aux sub (drop (Z.to_nat start) s) start.

(** [sub in s] *)
Definition contains (sub s : str) : bool := 0 <=? find sub s 0.

(** [s[start:stop]] for non-negative indices. *)
Definition slice (s : str) (start stop : Z) : str :=
  take (Z.to_nat (stop - start)) (drop (Z.to_nat start) s).

(** [str.isspace] on one code point (the Unicode White_Space characters
    together with the separators U+001C to U+001F, as CPython has them). *)
Definition isspace (c : char) : bool :=
  ((9 <=? c) && (c <=? 13) || (28 <=? c) && (c <=? 32) || (c =? 133)
   || (c =? 160) || (c =? 5760) || (8192 <=? c) && (c <=? 8202)
   || (c =? 8232) || (c =? 8233) || (c =? 8239) || (c =? 8287)
   || (c =? 12288))%N.

Fixpoint lstrip (s : str) : str :=
  match s with
  | [] => []
  | c :: s' => if isspace c then lstrip s' else s
  end.

Definition rstrip (s : str) : str := rev (lstrip (rev s)).

(** [s.strip()] *)
Definition strip (s : str) : str := rstrip (lstrip s).

(** [s.split(sep)] for a one-character separator. *)
Fixpoint split (sep : char) (s : str) : list str :=
  match s with
  | [] => [[]]
  | c :: s' =>
      if (c =? sep)%N then [] :: split sep s'
      else match split sep s' with
           | l :: ls => (c :: l) :: ls
           | [] => [[c]]
           end
  end.

(** [sep.join(ls)] *)
Fixpoint join (sep : str) (ls : list str) : str :=
  match ls with
  | [] => []
  | l :: ls' =>
      match ls' with
      | [] => l
      | _ :: _ => l ++ sep ++ join sep ls'
      end
  end.

(** [s.count(c)] for a one-character [c]. *)
Fixpoint count (c : char) (s : str) : Z :=
  match s with
  | [] => 0
  | d :: s' => (if (d =? c)%N then 1 else 0) + count c s'
  end.

(** [c in s] for a one-character [c]. *)
Definition has_char (c : char) (s : str) : bool :=
  existsb (fun d => (d =? c)%N) s.

(** [ls.insert(i, x)] for [0 <= i <= len(ls)]. *)
Definition list_insert {A} (i : nat) (x : A) (ls : list A) : list A :=
  take i ls ++ x :: drop i ls.

(** Exceptions that leave a function; [SystemExit n] is [sys.exit(n)]. *)
Inductive exn :=
  | SystemExit (code : Z)
  | IndexError
  | KeyError
  | TypeError
  | FileNotFoundError
  | SameFileError
  | TimeoutExpired
  | OtherError.

Inductive res (A : Type) :=
  | Ok (a : A)
  | Raise (e : exn).
Arguments Ok {A} a.
Arguments Raise {A} e.

#[global] Instance res_ret : MRet res := fun A a => Ok a.
#[global] Instance res_bind : MBind res := fun A B f m =>
  match m with
  | Ok a => f a
  | Raise e => Raise e
  end.

(** Exit status of the interpreter: the argument of [sys.exit], and 1 for
    any other exception that nobody caught. *)
Definition exit_code {A} (r : res A) : Z :=
  match r with
  | Ok _ => 0
  | Raise (SystemExit n) => n
  | Raise _ => 1
  end.

End py.

Import py.

(** ** generate_tests.py *)

Module generate_tests.

Definition FENCE_RUST : str := lit "```rust".
Definition FENCE : str := lit "```".
Definition MARKER : str := lit "#[cfg(test)]".
Definition LBRACE : char := 123%N.
Definition RBRACE : char := 125%N.

(** Lines 102-110 of [call_github_models_api]: the code taken from the
    model's answer. *)
Definition extract_code (generated_content : str) : str :=
  if contains FENCE_RUST generated_content then
    let start := find FENCE_RUST generated_content 0 + 7 in
    let end_ := find FENCE generated_content start in
    if end_ >? start then strip (slice generated_content start end_)
    else generated_content
  else generated_content.

(** The [for i, line in enumerate(lines)] loop of
    [integrate_tests_into_file]; the result is [insert_position], which
    stays [-1] when the loop ends without [break]. *)
Fixpoint scan_lines (lines : list str) (i : Z) (in_test_module : bool)
    (brace_count : Z) : Z :=
  match lines with
  | [] => -1
  | line :: rest =>
      if contains MARKER line then scan_lines rest (i + 1) true brace_count
      else if in_test_module then
        let brace_count := brace_count + count LBRACE line in
        let brace_count := brace_count - count RBRACE line in
        if (brace_count =? 0) && has_char RBRACE line then i
        else scan_lines rest (i + 1) in_test_module brace_count
      else scan_lines rest (i + 1) in_test_module brace_count
  end.

(** The text put around the generated tests by the last [return]. *)
Definition WRAPPER_HEAD : str :=
  [NL; NL] ++ lit "#[cfg(test)]" ++ [NL] ++ lit "mod tests {" ++ [NL]
  ++ lit "    use super::*;" ++ [NL; NL].
Definition WRAPPER_TAIL : str := [NL] ++ lit "}" ++ [NL].

Definition append_new_module (original_content generated_tests : str) : str :=
  original_content ++ WRAPPER_HEAD ++ generated_tests ++ WRAPPER_TAIL.

Definition integrate_tests_into_file (original_content generated_tests : str)
    : str :=
  if contains MARKER original_content then
    let lines := split NL original_content in
    let insert_position := scan_lines lines 0 false 0 in
    if insert_position >? 0 then
      let lines := list_insert (Z.to_nat insert_position) generated_tests lines in
      let lines := list_insert (Z.to_nat insert_position) [] lines in
      join [NL] lines
    else append_new_module original_content generated_tests
  else append_new_module original_content generated_tests.

End generate_tests.

Import generate_tests.

(** ** The coverage report (JSON document of the coverage tool)

    Every key the scripts read with [.get(key, default)] is an [option]. *)

Module report.

(** A dictionary of counters: [lines], [regions] or [functions]. *)
Record counters := Counters {
  c_covered : option Z;
  c_count : option Z
}.

Record summary_t := Summary {
  s_lines : option counters;
  s_regions : option counters;
  s_functions : option counters
}.

Record file_data := FileData {
  fd_filename : option str;
  fd_summary : option summary_t
}.

Record data_entry := DataEntry { de_files : option (list file_data) }.

Record coverage_data := CoverageData { cd_data : option (list data_entry) }.

Definition empty_counters : counters := Counters None None.
Definition empty_summary : summary_t := Summary None None None.

(** [coverage_data.get("data", [{}])[0].get("files", [])] *)
Definition files_of (cd : coverage_data) : res (list file_data) :=
  match cd_data cd with
  | None => Ok []
  | Some [] => Raise IndexError
  | Some (e :: _) => Ok (default [] (de_files e))
  end.

(** The [stats] dictionary built for a file. *)
Record stats_t := Stats {
  st_covered : Z;
  st_total : Z;
  st_coverage : Qc;
  st_regions : counters;
  st_functions : counters
}.

(** [(covered / total) * 100] *)
Definition percent (covered total : Z) : Qc :=
  (Qc_of_Z covered / Qc_of_Z total * Qc_of_Z 100)%Qc.

End report.

Import report.

(** ** analyze_coverage.py *)

Module analyze_coverage.

Definition entry : Type := str * Qc * stats_t.

(** Body of the [for file_data in ...] loop of [extract_file_coverage]. *)
Definition extract_step (file_stats : list entry) (fd : file_data)
    : list entry :=
  let filename := default [] (fd_filename fd) in
  if negb (endswith (lit ".rs") filename) then file_stats
  else if contains (lit "target/") filename || contains (lit ".cargo/") filename
  then file_stats
  else if contains (lit "/tests/") filename || endswith (lit "_test.rs") filename
  then file_stats
  else
    let summary := default empty_summary (fd_summary fd) in
    let lines := default empty_counters (s_lines summary) in
    let covered := default 0 (c_covered lines) in
    let total := default 0 (c_count lines) in
    if total >? 0 then
      let coverage_pct := percent covered total in
      let stats :=
        {| st_covered := covered; st_total := total;
           st_coverage := coverage_pct;
           st_regions := default empty_counters (s_regions summary);
           st_functions := default empty_counters (s_functions summary) |} in
      file_stats ++ [(filename, coverage_pct, stats)]
    else file_stats.

Definition extract_file_coverage (cd : coverage_data) : res (list entry) :=
  files ← files_of cd;
  mret (fold_left extract_step files []).

(** [sorted(file_stats, key=lambda x: x[1])]: the stable ascending sort,
    which compares keys with [<] only. *)
Fixpoint insert_sorted (x : entry) (l : list entry) : list entry :=
  match l with
  | [] => [x]
  | y :: l' =>
      if bool_decide (y.1.2 < x.1.2)%Qc then y :: insert_sorted x l'
      else x :: y :: l'
  end.

Definition sorted (l : list entry) : list entry :=
  foldr insert_sorted [] l.

Definition find_least_covered_file (file_stats : list entry)
    : res (str * stats_t) :=
  match file_stats with
  | [] => Raise (SystemExit 1)
  | _ :: _ =>
      match sorted file_stats with
      | [] => Raise IndexError
      | (filename, coverage_pct, stats) :: _ => Ok (filename, stats)
      end
  end.

(** The float branch of the builtin [sum] (CPython 3.12 and later): the
    running total [f_result] and the compensation [c] of Neumaier's
    summation, which is added at the end when it is not zero. *)
Fixpoint sum_floats (xs : list Qc) (f_result c : Qc) : Qc :=
  match xs with
  | [] => if bool_decide (c = Qc_of_Z 0) then f_result else (f_result + c)%Qc
  | x :: xs' =>
      let t := (f_result + x)%Qc in
      let c :=
        if bool_decide (Qcabs.Qcabs x <= Qcabs.Qcabs f_result)%Qc
        then (c + ((f_result - t) + x))%Qc
        else (c + ((x - t) + f_result))%Qc in
      sum_floats xs' t c
  end.

(** [sum(xs)] on floats: the start value is the integer [0], to which the
    first item is added; the other items go through [sum_floats].  (Before
    CPython 3.12 the items were added one by one from left to right, which
    gives the same exact value, see [sum_exact].) *)
Definition sum (xs : list Qc) : Qc :=
  match xs with
  | [] => Qc_of_Z 0
  | x :: xs' => sum_floats xs' (Qc_of_Z 0 + x)%Qc (Qc_of_Z 0)
  end.

(** The two documents written by [main]. *)
Record analysis_t := Analysis {
  a_file : str;
  a_coverage : Qc;
  a_stats : stats_t
}.

Record overall_t := Overall {
  total_files : Z;
  average_coverage : Qc
}.

(** [main] after [run_coverage] has produced the report. *)
Definition main (cd : coverage_data) : res (analysis_t * overall_t) :=
  file_stats ← extract_file_coverage cd;
  match file_stats with
  | [] => Raise (SystemExit 1)
  | _ :: _ =>
      '(least_covered_file, stats) ← find_least_covered_file file_stats;
      let output := Analysis least_covered_file (st_coverage stats) stats in
      let overall_stats :=
        {| total_files := Z.of_nat (length file_stats);
           average_coverage :=
             (sum (map (fun x : entry => x.1.2) file_stats)
              / Qc_of_Z (Z.of_nat (length file_stats)))%Qc |} in
      mret (output, overall_stats)
  end.

End analyze_coverage.

(** ** generate_report.py *)

Module generate_report.

Import analyze_coverage.

(** Body of the loop of [calculate_overall_coverage] on the pair
    [(file_count, total_coverage)]. *)
Definition overall_step (acc : Z * Qc) (fd : file_data) : Z * Qc :=
  let '(file_count, total_coverage) := acc in
  let filename := default [] (fd_filename fd) in
  if negb (endswith (lit ".rs") filename) then acc
  else if contains (lit "target/") filename || contains (lit ".cargo/") filename
  then acc
  else if contains (lit "/tests/") filename || endswith (lit "_test.rs") filename
  then acc
  else
    let summary := default empty_summary (fd_summary fd) in
    let lines := default empty_counters (s_lines summary) in
    let covered := default 0 (c_covered lines) in
    let total := default 0 (c_count lines) in
    if total >? 0 then
      let coverage_pct := percent covered total in
      (file_count + 1, (total_coverage + coverage_pct)%Qc)
    else acc.

Definition calculate_overall_coverage (cd : coverage_data) : res overall_t :=
  files ← files_of cd;
  let '(file_count, total_coverage) :=
    fold_left overall_step files (0, Qc_of_Z 0) in
  if file_count >? 0 then
    mret {| total_files := file_count;
            average_coverage := (total_coverage / Qc_of_Z file_count)%Qc |}
  else mret {| total_files := 0; average_coverage := Qc_of_Z 0 |}.

(** The loop of [get_file_coverage_from_data]: the first file of that name
    with [total > 0] ends it; [None] is the final [return None]. *)
Fixpoint find_file_coverage (files : list file_data) (target_file : str)
    : option stats_t :=
  match files with
  | [] => None
  | fd :: rest =>
      let filename := default [] (fd_filename fd) in
      if decide (filename = target_file) then
        let summary := default empty_summary (fd_summary fd) in
        let lines := default empty_counters (s_lines summary) in
        let covered := default 0 (c_covered lines) in
        let total := default 0 (c_count lines) in
        if total >? 0 then
          let coverage_pct := percent covered total in
          Some {| st_covered := covered; st_total := total;
                  st_coverage := coverage_pct;
                  st_regions := default empty_counters (s_regions summary);
                  st_functions :=
                    default empty_counters (s_functions summary) |}
        else find_file_coverage rest target_file
      else find_file_coverage rest target_file
  end.

Definition get_file_coverage_from_data (cd : coverage_data)
    (target_file : str) : res (option stats_t) :=
  files ← files_of cd;
  mret (find_file_coverage files target_file).

End generate_report.

(** ** The two averages on binary64 floats

    The statistics above use exact rationals.  This module computes the two
    averages on IEEE 754 binary64 numbers, as the interpreter does, for
    counters below [2^53] (whose conversion to a float is exact). *)

Module float_model.

Import analyze_coverage.

(** [float(n)] for [0 <= n < 2^53]. *)
Definition float_of_int (n : Z) : float := PrimFloat.of_uint63 (Uint63.of_Z n).

(** [(covered / total) * 100] *)
Definition percent (covered total : Z) : float :=
  PrimFloat.mul (PrimFloat.div (float_of_int covered) (float_of_int total))
    (float_of_int 100).

Definition isfinite (x : float) : bool :=
  negb (PrimFloat.is_nan x) && negb (PrimFloat.is_infinity x).

(** The float branch of the builtin [sum] (CPython 3.12 and later). *)
Fixpoint sum_floats (xs : list float) (f_result c : float) : float :=
  match xs with
  | [] =>
      if negb (PrimFloat.eqb c PrimFloat.zero) && isfinite c
      then PrimFloat.add f_result c
      else f_result
  | x :: xs' =>
      let t := PrimFloat.add f_result x in
      let c :=
        if PrimFloat.leb (PrimFloat.abs x) (PrimFloat.abs f_result)
        then PrimFloat.add c (PrimFloat.add (PrimFloat.sub f_result t) x)
        else PrimFloat.add c (PrimFloat.add (PrimFloat.sub x t) f_result) in
      sum_floats xs' t c
  end.

(** [sum(xs)], started from the integer [0]. *)
Definition sum (xs : list float) : float :=
  match xs with
  | [] => PrimFloat.zero
  | x :: xs' => sum_floats xs' (PrimFloat.add PrimFloat.zero x) PrimFloat.zero
  end.

(** [sum(x[1] for x in file_stats) / len(file_stats)], where [x[1]] is the
    float [(covered / total) * 100] of the counters kept in [x[2]]. *)
Definition analyzer_average (file_stats : list entry) : float :=
  PrimFloat.div
    (sum (map (fun x : entry => percent (st_covered x.2) (st_total x.2))
            file_stats))
    (float_of_int (Z.of_nat (length file_stats))).

(** Body of the loop of [calculate_overall_coverage] on the pair
    [(file_count, total_coverage)]. *)
Definition overall_step (acc : Z * float) (fd : file_data) : Z * float :=
  let '(file_count, total_coverage) := acc in
  let filename := default [] (fd_filename fd) in
  if negb (endswith (lit ".rs") filename) then acc
  else if contains (lit "target/") filename || contains (lit ".cargo/") filename
  then acc
  else if contains (lit "/tests/") filename || endswith (lit "_test.rs") filename
  then acc
  else
    let summary := default empty_summary (fd_summary fd) in
    let lines := default empty_counters (s_lines summary) in
    let covered := default 0 (c_covered lines) in
    let total := default 0 (c_count lines) in
    if total >? 0 then
      let coverage_pct := percent covered total in
      (file_count + 1, PrimFloat.add total_coverage coverage_pct)
    else acc.

(** [calculate_overall_coverage]: the pair of [total_files] and
    [average_coverage]. *)
Definition calculate_overall_coverage (cd : coverage_data) : res (Z * float) :=
  files ← files_of cd;
  let '(file_count, total_coverage) :=
    fold_left overall_step files (0, PrimFloat.zero) in
  if file_count >? 0 then
    mret (file_count, PrimFloat.div total_coverage (float_of_int file_count))
  else mret (0, PrimFloat.zero).

End float_model.

(** ** validate_tests.py *)

Module validate_tests.

(** Contents of a file on disk. *)
Definition content := list Byte.byte.

(** The JSON object of [/tmp/test_generation_metadata.json]; a key that
    is absent is [None]. *)
Record metadata := Metadata {
  original_file : option str;
  generated_tests_path : option str;
  coverage_before : option Qc;
  validation_success : option bool;
  validation_attempts : option Z
}.

(** How a [subprocess.run] ends: with a return code, by
    [subprocess.TimeoutExpired], or by some other exception. *)
Inductive proc :=
  | Completed (returncode : Z)
  | TimedOut
  | Failed.

(** What the two cargo commands do during one call of [validate_tests]. *)
Record oracle := Oracle {
  cargo_check : proc;
  cargo_test : proc
}.

(** One call of [validate_tests] as the history keeps it: its two paths, the value of
    [validate_tests.success] and the files when the call starts, the files
    when it ends, and how it ends. *)
Record call := Call {
  call_candidate : str;
  call_original : str;
  call_flag : bool;
  call_before : gmap str content;
  call_after : gmap str content;
  call_result : res bool
}.

(** State of the process and of the machine around it.  [success] is the
    function attribute [validate_tests.success]; [history] is a ghost
    field that records the calls of [validate_tests]. *)
Record world := World {
  files : gmap str content;
  metadata_file : option metadata;
  success : bool;
  history : list call
}.

Definition with_files (f : gmap str content) (w : world) : world :=
  World f (metadata_file w) (success w) (history w).
Definition with_metadata_file (m : option metadata) (w : world) : world :=
  World (files w) m (success w) (history w).
Definition with_success (b : bool) (w : world) : world :=
  World (files w) (metadata_file w) b (history w).
Definition with_history (h : list call) (w : world) : world :=
  World (files w) (metadata_file w) (success w) h.

(** Computations that read and write the world and may raise. *)
Definition M (A : Type) : Type := world -> res A * world.

#[global] Instance M_ret : MRet M := fun A a w => (Ok a, w).
#[global] Instance M_bind : MBind M := fun A B f m w =>
  match m w with
  | (Ok a, w') => f a w'
  | (Raise e, w') => (Raise e, w')
  end.

Definition raise {A} (e : exn) : M A := fun w => (Raise e, w).

(** [try: body except ...: handler]; [handler e] is [None] when no
    [except] clause matches [e]. *)
Definition try_except {A} (body : M A) (handler : exn -> option (M A)) : M A :=
  fun w =>
    match body w with
    | (Ok a, w') => (Ok a, w')
    | (Raise e, w') =>
        match handler e with
        | Some h => h w'
        | None => (Raise e, w')
        end
    end.

(** [try: body finally: fin]: [fin] runs on every way out of [body], and
    an exception of [fin] replaces the outcome of [body]. *)
Definition try_finally {A} (body : M A) (fin : M unit) : M A :=
  fun w =>
    match body w with
    | (r, w') =>
        match fin w' with
        | (Ok _, w'') => (r, w'')
        | (Raise e, w'') => (Raise e, w'')
        end
    end.

(** [shutil.copy2(src, dst)] *)
Definition copy2 (src dst : str) : M unit := fun w =>
  match files w !! src with
  | None => (Raise FileNotFoundError, w)
  | Some c =>
      if decide (src = dst) then (Raise SameFileError, w)
      else (Ok (), with_files (<[dst := c]> (files w)) w)
  end.

(** [path.exists()] and [path.unlink()] *)
Definition exists_ (path : str) : M bool := fun w =>
  (Ok (bool_decide (is_Some (files w !! path))), w).
Definition unlink (path : str) : M unit := fun w =>
  match files w !! path with
  | None => (Raise FileNotFoundError, w)
  | Some _ => (Ok (), with_files (delete path (files w)) w)
  end.

(** [subprocess.run(..., timeout=...)] gives the return code. *)
Definition run (p : proc) : M Z :=
  match p with
  | Completed rc => mret rc
  | TimedOut => raise TimeoutExpired
  | Failed => raise OtherError
  end.

(** [pass] *)
Definition pass : M unit := fun w => (Ok (), w).

Definition get_success : M bool := fun w => (Ok (success w), w).
Definition set_success (b : bool) : M unit := fun w => (Ok (), with_success b w).

(** The clauses [except subprocess.TimeoutExpired] and [except Exception]
    of [validate_tests]; [SystemExit] is not an [Exception]. *)
Definition handlers (e : exn) : option (M bool) :=
  match e with
  | TimeoutExpired => Some (mret false)
  | SystemExit _ => None
  | _ => Some (mret false)
  end.

Definition validate_tests (o : oracle) (test_file_path original_file_path : str)
    : M bool :=
  let backup_path := original_file_path ++ lit ".backup" in
  copy2 original_file_path backup_path;;
  try_finally
    (try_except
       (copy2 test_file_path original_file_path;;
        check_returncode ← run (cargo_check o);
        if negb (check_returncode =? 0) then mret false
        else
          test_returncode ← run (cargo_test o);
          if negb (test_returncode =? 0) then mret false
          else mret true)
       handlers)
    (flag ← get_success;
     (if negb flag then copy2 backup_path original_file_path else pass);;
     present ← exists_ backup_path;
     if (present : bool) then unlink backup_path else pass).

Definition apply_tests (test_file_path original_file_path : str) : M unit :=
  copy2 test_file_path original_file_path.

(** [json.load] of the metadata file, after the test that it exists. *)
Definition load_metadata : M metadata := fun w =>
  match metadata_file w with
  | None => (Raise (SystemExit 1), w)
  | Some md => (Ok md, w)
  end.

(** [json.dump(metadata, f)] on the metadata file. *)
Definition dump_metadata (md : metadata) : M unit := fun w =>
  (Ok (), with_metadata_file (Some md) w).

(** [metadata[key]] *)
Definition getitem {A} (v : option A) : M A :=
  match v with
  | Some a => mret a
  | None => raise KeyError
  end.

Definition record_result (md : metadata) (ok : bool) (attempts : Z) : metadata :=
  {| original_file := original_file md;
     generated_tests_path := generated_tests_path md;
     coverage_before := coverage_before md;
     validation_success := Some ok;
     validation_attempts := Some attempts |}.

(** A call of [validate_tests] that is also written to the history. *)
Definition logged (o : oracle) (test_file_path original_file_path : str)
    : M bool := fun w =>
  match validate_tests o test_file_path original_file_path w with
  | (r, w') =>
      (r, with_history
            (history w' ++ [Call test_file_path original_file_path
                                 (success w) (files w) (files w') r]) w')
  end.

(** The [for attempt in range(1, 4)] loop of [main]; [oracles attempt] is
    what cargo does during that attempt. *)
Fixpoint attempt_loop (oracles : Z -> oracle) (md : metadata)
    (test_file_path original_file_path : str) (range : list Z) : M unit :=
  match range with
  | [] => pass
  | attempt :: rest =>
      r ← logged (oracles attempt) test_file_path original_file_path;
      set_success r;;
      flag ← get_success;
      if (flag : bool) then
        apply_tests test_file_path original_file_path;;
        dump_metadata (record_result md true attempt);;
        raise (SystemExit 0)
      else attempt_loop oracles md test_file_path original_file_path rest
  end.

Definition main (oracles : Z -> oracle) : M unit :=
  md ← load_metadata;
  test_file_path ← getitem (generated_tests_path md);
  original_file_path ← getitem (original_file md);
  attempt_loop oracles md test_file_path original_file_path [1; 2; 3];;
  dump_metadata (record_result md false 3);;
  raise (SystemExit 1).

(** The state in which the interpreter starts [main]:
    [validate_tests.success = False] (line 88) and no call made yet. *)
Definition initial (fs : gmap str content) (mf : option metadata) : world :=
  World fs mf false [].

End validate_tests.

(** ** generate_tests.py: the API call and [main] *)

Module generate_tests_main.

Import analyze_coverage validate_tests.

(** How the HTTP request ends: with a document whose first choice holds
    [content], with a [requests.exceptions.RequestException], or with a
    document of another shape. *)
Inductive api_outcome :=
  | Answer (content : str)
  | RequestException
  | BadShape.

(** [call_github_models_api] without the text of the prompt, which only
    travels to the service: the token test, the request and the
    extraction of the code. *)
Definition call_github_models_api (github_token : option str)
    (api : api_outcome) : res str :=
  match github_token with
  | None => Raise (SystemExit 1)
  | Some [] => Raise (SystemExit 1)
  | Some (_ :: _) =>
      match api with
      | Answer generated_content => Ok (extract_code generated_content)
      | RequestException => Raise (SystemExit 1)
      | BadShape => Raise KeyError
      end
  end.

(** What [main] reads: the analysis document (when the file exists), the
    source files that can be read, the token and the service. *)
Record inputs := Inputs {
  analysis_file : option analysis_t;
  read_file_content : str -> option str;
  github_token : option str;
  api : api_outcome
}.

(** What [main] writes: the text of [/tmp/updated_file.rs] and the
    metadata document. *)
Record outputs := Outputs {
  updated_file : str;
  metadata_written : metadata
}.

Definition OUTPUT_PATH : str := lit "/tmp/updated_file.rs".

Definition main (i : inputs) : res outputs :=
  match analysis_file i with
  | None => Raise (SystemExit 1)
  | Some analysis =>
      let filepath := a_file analysis in
      let coverage_stats := a_stats analysis in
      match read_file_content i filepath with
      | None => Raise (SystemExit 1)
      | Some file_content =>
          generated_tests ← call_github_models_api (github_token i) (api i);
          let updated_content :=
            integrate_tests_into_file file_content generated_tests in
          mret {| updated_file := updated_content;
                  metadata_written :=
                    {| original_file := Some filepath;
                       generated_tests_path := Some OUTPUT_PATH;
                       coverage_before := Some (st_coverage coverage_stats);
                       validation_success := None;
                       validation_attempts := None |} |}
      end
  end.

End generate_tests_main.

(** ** generate_report.py: [main]

    The text of the report is formatting only and is not part of the model;
    [main] is followed up to the detailed statistics it saves. *)

Module generate_report_main.

Import analyze_coverage generate_report validate_tests.

(** How [run_coverage_after] ends: with the parsed report, with a return
    code other than 0, or by [subprocess.TimeoutExpired]. *)
Inductive coverage_run :=
  | Measured (cd : coverage_data)
  | ExitNonZero
  | RunTimedOut.

Definition run_coverage_after (run : coverage_run) : res coverage_data :=
  match run with
  | Measured cd => Ok cd
  | ExitNonZero => Raise (SystemExit 1)
  | RunTimedOut => Raise TimeoutExpired
  end.

Record improvements_t := Improvements {
  file_coverage : Qc;
  lines_covered : Z;
  overall_coverage : Qc
}.

(** The document saved to [/tmp/coverage_stats.json]. *)
Record detailed_stats := DetailedStats {
  target_file : str;
  before_file : stats_t;
  before_overall : overall_t;
  after_file : stats_t;
  after_overall : overall_t;
  improvements : improvements_t
}.

(** [open()] of a file that a former stage wrote. *)
Definition open_json {A} (file : option A) : res A :=
  match file with
  | Some a => Ok a
  | None => Raise FileNotFoundError
  end.

Definition main (metadata_file : option metadata)
    (before_analysis_file : option analysis_t)
    (before_overall_file : option overall_t) (run : coverage_run)
    : res detailed_stats :=
  match metadata_file with
  | None => Raise (SystemExit 1)
  | Some metadata =>
      before_analysis ← open_json before_analysis_file;
      before_overall ← open_json before_overall_file;
      match original_file metadata with
      | None => Raise KeyError
      | Some target_file =>
          let before_coverage := a_stats before_analysis in
          after_coverage_data ← run_coverage_after run;
          found ← get_file_coverage_from_data after_coverage_data target_file;
          let after_coverage :=
            match found with
            | Some st => st
            | None => before_coverage
            end in
          after_overall ← calculate_overall_coverage after_coverage_data;
          mret {| target_file := target_file;
                  before_file := before_coverage;
                  before_overall := before_overall;
                  after_file := after_coverage;
                  after_overall := after_overall;
                  improvements :=
                    {| file_coverage :=
                         (st_coverage after_coverage
                          - st_coverage before_coverage)%Qc;
                       lines_covered :=
                         st_covered after_coverage - st_covered before_coverage;
                       overall_coverage :=
                         (average_coverage after_overall
                          - average_coverage before_overall)%Qc |} |}
      end
  end.

End generate_report_main.

(** * Vocabulary of the statements *)

Import analyze_coverage generate_report validate_tests.

(** ** Extraction of the code block *)

(** [sub] does not occur in [s] at any index below [n]. *)
Definition not_before (sub s : str) (n : nat) : Prop :=
  forall j, (j < n)%nat -> startswith sub (drop j s) = false.

(** [sub] does not occur in [s]. *)
Definition absent (sub s : str) : Prop := not_before sub s (S (length s)).

(** The extraction as the specification words it: the text between the
    tagged fence and the next fence, exactly. *)
Definition spec_extract_code (response : str) : str :=
  if contains FENCE_RUST response then
    let start := find FENCE_RUST response 0 + 7 in
    slice response start (find FENCE response start)
  else response.

(** ** Splice *)

Definition marker_line (line : str) : bool := contains MARKER line.

(** Contribution of one line to [brace_count]. *)
Definition delta (line : str) : Z := count LBRACE line - count RBRACE line.

(** Sum of [delta] over the lines that do not hold the marker. *)
Fixpoint tracked_balance (ls : list str) : Z :=
  match ls with
  | [] => 0
  | l :: ls' => (if marker_line l then 0 else delta l) + tracked_balance ls'
  end.

(** [line] ends the test module when [mid] are the lines between the
    first marker line and [line], and the count before them is [bc]. *)
Definition closes_from (bc : Z) (mid : list str) (line : str) : bool :=
  negb (marker_line line) && has_char RBRACE line
  && (bc + tracked_balance (mid ++ [line]) =? 0).

Definition closes (mid : list str) (line : str) : bool := closes_from 0 mid line.

(** The splice as the specification words it: the balance starts with the
    marker line itself. *)
Fixpoint spec_scan (lines : list str) (i : nat) (in_module : bool)
    (balance : Z) : option nat :=
  match lines with
  | [] => None
  | line :: rest =>
      if in_module then
        let balance := balance + delta line in
        if (balance =? 0) && has_char RBRACE line then Some i
        else spec_scan rest (S i) true balance
      else if marker_line line then spec_scan rest (S i) true (balance + delta line)
      else spec_scan rest (S i) false balance
  end.

Definition spec_insertion_point (original_content : str) : option nat :=
  spec_scan (split NL original_content) 0 false 0.

(** No line closes the module that starts at the first marker line. *)
Definition never_closes (lines : list str) : Prop :=
  forall pre mk mid close post,
    lines = pre ++ mk :: mid ++ close :: post ->
    Forall (fun l => marker_line l = false) pre ->
    marker_line mk = true ->
    closes mid close = false.

(** ** Coverage statistics *)

(** The filter on file names: [true] for a file that is not a Rust source
    file, lies in a build or dependency directory, or is a test file. *)
Definition skipped (filename : str) : bool :=
  if negb (endswith (lit ".rs") filename) then true
  else if contains (lit "target/") filename || contains (lit ".cargo/") filename
  then true
  else if contains (lit "/tests/") filename || endswith (lit "_test.rs") filename
  then true
  else false.

Definition name_of (fd : file_data) : str := default [] (fd_filename fd).
Definition lines_of (fd : file_data) : counters :=
  default empty_counters (s_lines (default empty_summary (fd_summary fd))).
Definition line_covered (fd : file_data) : Z := default 0 (c_covered (lines_of fd)).
Definition line_total (fd : file_data) : Z := default 0 (c_count (lines_of fd)).

(** The filter on files: a ranked source file with at least one line. *)
Definition eligible (fd : file_data) : bool :=
  negb (skipped (name_of fd)) && (line_total fd >? 0).

Definition entry_of (fd : file_data) : entry :=
  let summary := default empty_summary (fd_summary fd) in
  (name_of fd, percent (line_covered fd) (line_total fd),
   {| st_covered := line_covered fd; st_total := line_total fd;
      st_coverage := percent (line_covered fd) (line_total fd);
      st_regions := default empty_counters (s_regions summary);
      st_functions := default empty_counters (s_functions summary) |}).

Definition pct (e : entry) : Qc := e.1.2.

(** The order of [sorted(..., key=lambda x: x[1])]. *)
Definition by_pct (x y : entry) : Prop := (pct x <= pct y)%Qc.

(** The percentage of an entry as the binary64 float the scripts compute. *)
Definition float_pct (e : entry) : float :=
  float_model.percent (st_covered e.2) (st_total e.2).

(** The file that [get_file_coverage_from_data] looks for: the name asked
    for and at least one line. *)
Definition matches (target : str) (fd : file_data) : bool :=
  bool_decide (name_of fd = target) && (line_total fd >? 0).

(** An entry of the analyzer for the file [target]. *)
Definition named (target : str) (e : entry) : bool :=
  bool_decide (e.1.1 = target).


(** ** Validation *)

(** Both cargo commands end with return code 0. *)
Definition passes (o : oracle) : bool :=
  match cargo_check o, cargo_test o with
  | Completed 0, Completed 0 => true
  | _, _ => false
  end.

Definition backup_of (p : str) : str := p ++ lit ".backup".

Definition staged (o : oracle) (test orig : str) (fs1 : gmap str content)
    : bool * gmap str content :=
  match fs1 !! test with
  | Some c =>
      if decide (test = orig) then (false, fs1)
      else (passes o, <[orig := c]> fs1)
  | None => (false, fs1)
  end.

(** The world once a call that started in [w] and ended in [w0] with [r]
    is written to the history. *)
Definition after_call (test orig : str) (r : res bool) (w w0 : world) : world :=
  with_history
    (history w0 ++ [Call test orig (success w) (files w) (files w0) r]) w0.

Definition restored (c : call) : Prop :=
  call_flag c = false /\
  call_after c !! call_original c = call_before c !! call_original c.

(** ** Concrete inputs *)

Definition fenced_answer : str :=
  FENCE_RUST ++ [NL] ++ lit "X" ++ [NL] ++ FENCE.

Definition scenario_B : str :=
  lit "Here:" ++ [NL] ++ FENCE_RUST ++ [NL] ++ lit "TEST_CODE" ++ [NL]
  ++ FENCE ++ [NL] ++ lit "Done.".

Definition nl (a b : str) : str := a ++ [NL] ++ b.

(** A module whose opening brace stands on the marker line. *)
Definition one_line_module : str := nl (lit "#[cfg(test)] mod tests {") (lit "}").

(** A test module cut off before its closing brace. *)
Definition truncated_module : str := nl (lit "#[cfg(test)]") (lit "mod tests {").

Definition small_module : str :=
  nl (lit "fn f() {}") (nl (lit "#[cfg(test)]") (nl (lit "mod tests {") (lit "}"))).

(** First lines of the synthesized module. *)
Definition WRAPPER_MODULE : str :=
  lit "mod tests {" ++ [NL] ++ lit "    use super::*;".

Definition file_a : file_data :=
  FileData (Some (lit "src/a.rs"))
    (Some (Summary (Some (Counters (Some 10) (Some 10))) None None)).
Definition file_b : file_data :=
  FileData (Some (lit "src/b.rs"))
    (Some (Summary (Some (Counters (Some 2) (Some 10))) None None)).
Definition file_c : file_data :=
  FileData (Some (lit "src/c.rs"))
    (Some (Summary (Some (Counters (Some 0) (Some 0))) None None)).

(** Scenario A: a at 10/10, b at 2/10 and c at 0/0. *)
Definition scenario_A : coverage_data :=
  CoverageData (Some [DataEntry (Some [file_a; file_b; file_c])]).

(** A report whose only file has no line. *)
Definition report_without_lines : coverage_data :=
  CoverageData (Some [DataEntry (Some [file_c])]).

Definition file_whole : file_data :=
  FileData (Some (lit "src/whole.rs"))
    (Some (Summary (Some (Counters (Some 1) (Some 1))) None None)).
Definition file_third : file_data :=
  FileData (Some (lit "src/third.rs"))
    (Some (Summary (Some (Counters (Some 1) (Some 3))) None None)).
Definition file_sixth : file_data :=
  FileData (Some (lit "src/sixth.rs"))
    (Some (Summary (Some (Counters (Some 1) (Some 6))) None None)).

(** Three files at 1/1, 1/3 and 1/6. *)
Definition thirds_report : coverage_data :=
  CoverageData (Some [DataEntry (Some [file_whole; file_third; file_sixth])]).

Definition target_path : str := lit "src/a.rs".
Definition candidate_path : str := lit "/tmp/updated_file.rs".
Definition original_bytes : content := [Byte.x01].
Definition candidate_bytes : content := [Byte.x02].
Definition disk : gmap str content :=
  <[target_path := original_bytes]> (<[candidate_path := candidate_bytes]> ∅).
Definition generated_metadata : metadata :=
  Metadata (Some target_path) (Some candidate_path) None None None.
Definition check_fails : oracle := Oracle (Completed 101) (Completed 0).
Definition all_green : oracle := Oracle (Completed 0) (Completed 0).

(** A candidate (wrongly) stored at the backup path of the target. *)
Definition aliased_disk : gmap str content :=
  <[target_path := original_bytes]>
    (<[backup_of target_path := candidate_bytes]> ∅).
Definition aliased_metadata : metadata :=
  Metadata (Some target_path) (Some (backup_of target_path)) None None None.

(** Scenario E: the compile check fails at every attempt. *)
Definition scenario_E (attempt : Z) : oracle := check_fails.

(** Scenario D: the compile check fails twice, then everything passes. *)
Definition scenario_D (attempt : Z) : oracle :=
  if attempt =? 3 then all_green else check_fails.

(** The analysis of scenario A: [b] at 2/10 is selected. *)
Definition analysis_of_b : analysis_t :=
  Analysis (lit "src/b.rs") (pct (entry_of file_b)) (entry_of file_b).2.
Definition overall_of_A : overall_t :=
  Overall 2
    (sum [pct (entry_of file_a); pct (entry_of file_b)] / Qc_of_Z 2)%Qc.
Definition metadata_of_b : metadata :=
  Metadata (Some (lit "src/b.rs")) (Some candidate_path) None (Some true)
    (Some 1).

(** A run of the generator on [src/a.rs] with a fenced answer. *)
Definition generator_inputs : generate_tests_main.inputs :=
  generate_tests_main.Inputs
    (Some (Analysis target_path (pct (entry_of file_a)) (entry_of file_a).2))
    (fun _ => Some small_module)
    (Some (lit "token"))
    (generate_tests_main.Answer fenced_answer).

(** * Proofs *)

(** ** Extraction of the code block (generate_tests.py) *)

Lemma startswith_app sub rest : startswith sub (sub ++ rest) = true.
Proof. induction sub as [|a sub IH]; simpl; [done|]. by rewrite N.eqb_refl. Qed.

Lemma find_aux_unfold sub s i :
  find_aux sub s i =
    if startswith sub s then i
    else match s with [] => -1 | _ :: s' => find_aux sub s' (i + 1) end.
Proof. by destruct s. Qed.

Lemma find_aux_first sub pre : forall s i,
  not_before sub (pre ++ s) (length pre) ->
  startswith sub s = true ->
  find_aux sub (pre ++ s) i = i + Z.of_nat (length pre).
Proof.
  induction pre as [|a pre IH]; intros s i Hnb Hs.
  - rewrite find_aux_unfold. simpl. rewrite Hs. lia.
  - pose proof (Hnb 0%nat ltac:(simpl; lia)) as H0. rewrite drop_0 in H0.
    rewrite find_aux_unfold, H0.
    cbn [app]. rewrite IH; [simpl length; lia| |done].
    intros j Hj. apply (Hnb (S j)). simpl. lia.
Qed.

Lemma find_aux_absent sub : forall s i,
  absent sub s -> find_aux sub s i = -1.
Proof.
  induction s as [|a s IH]; intros i Ha.
  - pose proof (Ha 0%nat ltac:(simpl; lia)) as H0. rewrite drop_0 in H0.
    by rewrite find_aux_unfold, H0.
  - pose proof (Ha 0%nat ltac:(simpl; lia)) as H0. rewrite drop_0 in H0.
    rewrite find_aux_unfold, H0.
    apply IH. intros j Hj. apply (Ha (S j)). simpl in *. lia.
Qed.

Lemma find_first sub pre s :
  not_before sub (pre ++ s) (length pre) ->
  startswith sub s = true ->
  find sub (pre ++ s) 0 = Z.of_nat (length pre).
Proof.
  intros Hnb Hs. unfold find, len.
  assert ((Z.of_nat (length (pre ++ s)) <? 0) = false) as ->
    by (apply Z.ltb_ge; lia).
  change (Z.to_nat 0) with 0%nat. rewrite drop_0.
  by rewrite find_aux_first.
Qed.

Lemma find_absent sub s : absent sub s -> find sub s 0 = -1.
Proof.
  intros Ha. unfold find, len.
  assert ((Z.of_nat (length s) <? 0) = false) as ->
    by (apply Z.ltb_ge; lia).
  change (Z.to_nat 0) with 0%nat. rewrite drop_0.
  by apply find_aux_absent.
Qed.

(** [find] started right after a prefix looks at the rest only. *)
Lemma find_after sub (pre s : str) :
  find sub (pre ++ s) (Z.of_nat (length pre))
  = find_aux sub s (Z.of_nat (length pre)).
Proof.
  unfold find, len.
  assert ((Z.of_nat (length (pre ++ s)) <? Z.of_nat (length pre)) = false)
    as -> by (apply Z.ltb_ge; rewrite length_app; lia).
  by rewrite Nat2Z.id, drop_app_length.
Qed.

Lemma slice_middle (pre body rest : str) :
  slice (pre ++ body ++ rest) (Z.of_nat (length pre))
    (Z.of_nat (length pre) + Z.of_nat (length body)) = body.
Proof.
  unfold slice. rewrite Nat2Z.id, drop_app_length.
  replace (Z.to_nat (Z.of_nat (length pre) + Z.of_nat (length body)
                     - Z.of_nat (length pre))) with (length body) by lia.
  by rewrite take_app_length.
Qed.

Lemma find_after2 sub (pre tag s : str) :
  find sub (pre ++ tag ++ s) (Z.of_nat (length (pre ++ tag)))
  = find_aux sub s (Z.of_nat (length (pre ++ tag))).
Proof. rewrite app_assoc. apply find_after. Qed.

Lemma slice_middle2 (pre tag body rest : str) :
  slice (pre ++ tag ++ body ++ rest) (Z.of_nat (length (pre ++ tag)))
    (Z.of_nat (length (pre ++ tag)) + Z.of_nat (length body)) = body.
Proof. rewrite app_assoc. apply slice_middle. Qed.

(** C6 (code extraction), as the code has it.  When the answer holds the
    tagged fence, first at the end of [pre], and the next fence comes after a
    non-empty [body], [extract_code] returns [body] with leading and trailing
    white space stripped ([body.strip()]), not the exact substring; when the
    body is empty, or no fence follows the tagged fence, it returns the
    answer unchanged; and when the tagged fence is absent it returns the
    answer unchanged. *)
Theorem extract_code_fenced :
  (forall pre body post : str,
     let response := pre ++ FENCE_RUST ++ body ++ FENCE ++ post in
     not_before FENCE_RUST response (length pre) ->
     not_before FENCE (body ++ FENCE ++ post) (length body) ->
     extract_code response
     = match body with [] => response | _ :: _ => strip body end)
  /\ (forall pre rest : str,
        let response := pre ++ FENCE_RUST ++ rest in
        not_before FENCE_RUST response (length pre) ->
        absent FENCE rest ->
        extract_code response = response)
  /\ (forall response : str,
        absent FENCE_RUST response -> extract_code response = response).
Proof.
  assert (Hstart : forall pre rest : str,
            not_before FENCE_RUST (pre ++ FENCE_RUST ++ rest) (length pre) ->
            contains FENCE_RUST (pre ++ FENCE_RUST ++ rest) = true /\
            find FENCE_RUST (pre ++ FENCE_RUST ++ rest) 0 + 7
            = Z.of_nat (length (pre ++ FENCE_RUST))).
  { intros pre rest Hnb. unfold contains.
    rewrite find_first by (done || apply startswith_app).
    split; [apply Z.leb_le; lia|]. rewrite length_app.
    change (length FENCE_RUST) with 7%nat. lia. }
  split; [|split].
  - intros pre body post response Hnb Hnext. subst response.
    unfold extract_code.
    destruct (Hstart pre (body ++ FENCE ++ post) Hnb) as [-> ->].
    cbn zeta.
    rewrite find_after2, find_aux_first by (done || apply startswith_app).
    rewrite slice_middle2.
    destruct body as [|b body]; simpl length.
    + by rewrite Z.add_0_r, Z.gtb_ltb, Z.ltb_irrefl.
    + destruct (_ >? _) eqn:Hgt; [done|].
      rewrite Z.gtb_ltb in Hgt. apply Z.ltb_ge in Hgt. lia.
  - intros pre rest response Hnb Habs. subst response.
    unfold extract_code.
    destruct (Hstart pre rest Hnb) as [-> ->]. cbn zeta.
    rewrite find_after2, find_aux_absent by done.
    destruct (_ >? _) eqn:Hgt; [|done].
    apply Z.gtb_lt in Hgt. lia.
  - intros response Habs. unfold extract_code, contains.
    by rewrite find_absent.
Qed.

Lemma extract_code_counterexample :
  contains FENCE_RUST fenced_answer = true
  /\ spec_extract_code fenced_answer = [NL] ++ lit "X" ++ [NL]
  /\ extract_code fenced_answer = lit "X"
  /\ extract_code fenced_answer <> spec_extract_code fenced_answer.
Proof. vm_compute. repeat split; congruence. Qed.

Lemma extract_code_fenced_witness :
  extract_code scenario_B = lit "TEST_CODE".
Proof.
  change (lit "TEST_CODE") with (strip ([NL] ++ lit "TEST_CODE" ++ [NL])).
  apply (proj1 extract_code_fenced (lit "Here:" ++ [NL])
           ([NL] ++ lit "TEST_CODE" ++ [NL]) ([NL] ++ lit "Done.")).
  - intros j Hj.
    do 6 (destruct j as [|j]; [vm_compute; reflexivity|]).
    simpl in Hj. lia.
  - intros j Hj.
    do 11 (destruct j as [|j]; [vm_compute; reflexivity|]).
    simpl in Hj. lia.
Defined.

(** ** Splice (generate_tests.py) *)

Lemma tracked_balance_app a b :
  tracked_balance (a ++ b) = tracked_balance a + tracked_balance b.
Proof. induction a as [|l a IH]; simpl; [done|]. rewrite IH. lia. Qed.

Lemma scan_lines_before pre : forall rest i bc,
  Forall (fun l => marker_line l = false) pre ->
  scan_lines (pre ++ rest) i false bc
  = scan_lines rest (i + Z.of_nat (length pre)) false bc.
Proof.
  induction pre as [|l pre IH]; intros rest i bc Hpre; simpl.
  - f_equal. lia.
  - inversion Hpre as [|? ? Hl Hpre']; subst. unfold marker_line in Hl.
    rewrite Hl, IH by done. f_equal. lia.
Qed.

Lemma closes_from_cons bc l mid line :
  closes_from bc (l :: mid) line
  = closes_from (bc + (if marker_line l then 0 else delta l)) mid line.
Proof. unfold closes_from. simpl. do 2 f_equal. lia. Qed.

Lemma scan_lines_step l rest i bc :
  closes_from bc [] l = false ->
  scan_lines (l :: rest) i true bc
  = scan_lines rest (i + 1) true (bc + (if marker_line l then 0 else delta l)).
Proof.
  intros Hc. cbn [scan_lines]. unfold closes_from in Hc. simpl in Hc.
  unfold marker_line in *.
  destruct (contains MARKER l) eqn:Hm.
  - f_equal. lia.
  - simpl in Hc.
    replace (bc + count LBRACE l - count RBRACE l)
      with (bc + (delta l + 0)) by (unfold delta; lia).
    rewrite andb_comm, Hc. f_equal. lia.
Qed.

Lemma scan_lines_found mid : forall close post i bc,
  (forall k l, mid !! k = Some l -> closes_from bc (take k mid) l = false) ->
  closes_from bc mid close = true ->
  scan_lines (mid ++ close :: post) i true bc = i + Z.of_nat (length mid).
Proof.
  induction mid as [|l mid IH]; intros close post i bc Hmid Hclose.
  - unfold closes_from in Hclose. simpl in *. unfold marker_line in *.
    apply andb_true_iff in Hclose as [Hc Hb].
    apply andb_true_iff in Hc as [Hm Hr]. apply negb_true_iff in Hm.
    rewrite Hm in *.
    replace (bc + count LBRACE close - count RBRACE close)
      with (bc + (delta close + 0)) by (unfold delta; lia).
    rewrite Hb, Hr. simpl. lia.
  - cbn [app]. rewrite scan_lines_step by (apply (Hmid 0%nat l); done).
    rewrite IH.
    + simpl length. lia.
    + intros k l' Hk. rewrite <- closes_from_cons. apply (Hmid (S k) l'). done.
    + by rewrite <- closes_from_cons.
Qed.

Lemma scan_lines_not_found ls : forall i bc,
  (forall k l, ls !! k = Some l -> closes_from bc (take k ls) l = false) ->
  scan_lines ls i true bc = -1.
Proof.
  induction ls as [|l ls IH]; intros i bc Hls; [done|].
  rewrite scan_lines_step by (apply (Hls 0%nat l); done).
  apply IH. intros k l' Hk. rewrite <- closes_from_cons.
  apply (Hls (S k) l'). done.
Qed.

Lemma scan_lines_marker mk rest i b bc :
  marker_line mk = true ->
  scan_lines (mk :: rest) i b bc = scan_lines rest (i + 1) true bc.
Proof. unfold marker_line. simpl. by intros ->. Qed.

Lemma scan_lines_never ls : forall i,
  never_closes ls -> scan_lines ls i false 0 = -1.
Proof.
  induction ls as [|l ls IH]; intros i Hn; [done|].
  destruct (marker_line l) eqn:Hl.
  - rewrite scan_lines_marker by done.
    apply scan_lines_not_found. intros k l' Hk.
    apply (Hn [] l (take k ls) l' (drop (S k) ls)); [|done|done].
    simpl. f_equal. by rewrite <- (take_drop_middle ls k l') at 1.
  - rewrite (scan_lines_before [l] ls) by (by constructor).
    apply IH. intros pre mk mid close post -> Hpre Hmk.
    apply (Hn (l :: pre) mk mid close post); [done| |done].
    by constructor.
Qed.

Lemma list_insert_twice (A B : list str) (g : str) :
  list_insert (length A) [] (list_insert (length A) g (A ++ B))
  = A ++ [] :: g :: B.
Proof.
  unfold list_insert.
  rewrite take_app_length, drop_app_length.
  by rewrite take_app_length, drop_app_length.
Qed.

(** C5 (insertion point), as the code has it.  Let the lines of a text that
    contains the marker be [pre ++ mk :: mid ++ close :: post], where [mk] is
    the first line holding the marker.  The balance is counted from the line
    after [mk], over the lines that do not hold the marker.  If [close] is
    the first line after [mk] that does not hold the marker, contains a
    closing brace, and brings this balance to zero, the result is the
    original lines with an empty line and the generated code inserted just
    before [close], every other line unchanged. *)
Theorem integrate_tests_insertion_point
    (original generated : str) (pre : list str) (mk : str) (mid : list str)
    (close : str) (post : list str) :
  contains MARKER original = true ->
  split NL original = pre ++ mk :: mid ++ close :: post ->
  Forall (fun l => marker_line l = false) pre ->
  marker_line mk = true ->
  (forall k l, mid !! k = Some l -> closes (take k mid) l = false) ->
  closes mid close = true ->
  integrate_tests_into_file original generated
  = join [NL] (pre ++ mk :: mid ++ [] :: generated :: close :: post).
Proof.
  intros Hc Hs Hpre Hmk Hmid Hclose.
  unfold integrate_tests_into_file. rewrite Hc, Hs. cbn zeta.
  rewrite scan_lines_before, scan_lines_marker, scan_lines_found by done.
  assert (0 + Z.of_nat (length pre) + 1 + Z.of_nat (length mid)
    = (Z.of_nat (length (pre ++ mk :: mid)))) as ->.
  { rewrite length_app, length_cons. lia. }
  assert ((Z.of_nat (length (pre ++ mk :: mid)) >? 0) = true) as ->.
  { apply Z.gtb_lt. rewrite length_app, length_cons. lia. }
  rewrite Nat2Z.id.
  replace (pre ++ mk :: mid ++ close :: post)
    with ((pre ++ mk :: mid) ++ close :: post)
    by (by rewrite <- app_assoc).
  rewrite list_insert_twice. by rewrite <- app_assoc.
Qed.

(** C4 (fallthrough on a malformed source), as the code has it.  For a text
    that contains the marker and in which no line after the first marker
    line closes the module, the generated code is appended at the end of the
    file inside the synthesized test module, exactly as when there is no
    marker at all. *)
Theorem integrate_tests_fallthrough_wrapped (original generated : str) :
  contains MARKER original = true ->
  never_closes (split NL original) ->
  integrate_tests_into_file original generated
  = original ++ WRAPPER_HEAD ++ generated ++ WRAPPER_TAIL.
Proof.
  intros Hc Hn. unfold integrate_tests_into_file. rewrite Hc. cbn zeta.
  by rewrite scan_lines_never.
Qed.

Lemma insertion_point_counterexample :
  contains MARKER one_line_module = true
  /\ spec_insertion_point one_line_module = Some 1%nat
  /\ integrate_tests_into_file one_line_module (lit "T")
     <> join [NL] [lit "#[cfg(test)] mod tests {"; []; lit "T"; lit "}"]
  /\ integrate_tests_into_file one_line_module (lit "T")
     = one_line_module ++ WRAPPER_HEAD ++ lit "T" ++ WRAPPER_TAIL.
Proof. vm_compute. repeat split; congruence. Qed.

Lemma fallthrough_counterexample :
  contains MARKER truncated_module = true
  /\ spec_insertion_point truncated_module = None
  /\ scan_lines (split NL truncated_module) 0 false 0 = -1
  /\ contains WRAPPER_MODULE truncated_module = false
  /\ contains WRAPPER_MODULE (lit "T") = false
  /\ contains WRAPPER_MODULE
       (integrate_tests_into_file truncated_module (lit "T")) = true
  /\ integrate_tests_into_file truncated_module (lit "T")
     <> truncated_module ++ lit "T"
  /\ integrate_tests_into_file truncated_module (lit "T")
     <> truncated_module ++ [NL] ++ lit "T".
Proof. vm_compute. repeat split; congruence. Qed.

Lemma integrate_tests_insertion_point_witness :
  integrate_tests_into_file small_module (lit "T")
  = join [NL] [lit "fn f() {}"; lit "#[cfg(test)]"; lit "mod tests {"; [];
               lit "T"; lit "}"].
Proof.
  apply (integrate_tests_insertion_point small_module (lit "T")
           [lit "fn f() {}"] (lit "#[cfg(test)]") [lit "mod tests {"]
           (lit "}") []).
  - vm_compute. reflexivity.
  - vm_compute. reflexivity.
  - repeat constructor.
  - vm_compute. reflexivity.
  - intros [|[|k]] l Hk; simpl in Hk; try discriminate.
    injection Hk as <-. vm_compute. reflexivity.
  - vm_compute. reflexivity.
Defined.

Lemma integrate_tests_fallthrough_wrapped_witness :
  integrate_tests_into_file truncated_module (lit "T")
  = truncated_module ++ WRAPPER_HEAD ++ lit "T" ++ WRAPPER_TAIL.
Proof.
  apply integrate_tests_fallthrough_wrapped.
  - vm_compute. reflexivity.
  - assert (split NL truncated_module
            = [lit "#[cfg(test)]"; lit "mod tests {"]) as Hsplit
      by (vm_compute; reflexivity).
    intros pre mk mid close post Heq Hpre Hmk. rewrite Hsplit in Heq.
    destruct pre as [|p0 [|p1 [|p2 pre]]], mid as [|m0 [|m1 mid]];
      simplify_eq/=; vm_compute; reflexivity.
Defined.

(** ** Coverage statistics (analyze_coverage.py, generate_report.py) *)

Lemma extract_step_eligible acc fd :
  extract_step acc fd = if eligible fd then acc ++ [entry_of fd] else acc.
Proof.
  unfold extract_step, eligible, skipped, entry_of, line_total, line_covered,
    lines_of, name_of.
  destruct (endswith (lit ".rs") _); simpl; [|done].
  destruct (contains (lit "target/") _ || contains (lit ".cargo/") _); simpl; [done|].
  destruct (contains (lit "/tests/") _ || endswith (lit "_test.rs") _); simpl; [done|].
  done.
Qed.

Lemma extract_fold files : forall acc,
  fold_left extract_step files acc = acc ++ (entry_of <$> filter eligible files).
Proof.
  induction files as [|fd files IH]; intros acc; simpl.
  - by rewrite app_nil_r.
  - rewrite IH, extract_step_eligible, filter_cons.
    destruct (eligible fd); simpl; [|done].
    by rewrite <- app_assoc.
Qed.

Lemma extract_file_coverage_Ok cd stats :
  extract_file_coverage cd = Ok stats <->
  exists files, files_of cd = Ok files /\
    stats = entry_of <$> filter eligible files.
Proof.
  unfold extract_file_coverage, mbind, res_bind, mret, res_ret.
  destruct (files_of cd) as [files|e].
  - rewrite extract_fold. simpl. split.
    + intros [= <-]. by exists files.
    + intros (fs & [= <-] & ->). done.
  - split; [done|]. by intros (fs & ? & _).
Qed.

Lemma percent_times_total covered total :
  0 < total ->
  (percent covered total * Qc_of_Z total = Qc_of_Z covered * Qc_of_Z 100)%Qc.
Proof.
  intros Ht. unfold percent.
  assert (Qc_of_Z total <> 0%Qc) as Hne.
  { rewrite <- Z2Qc_inj_0. intros H%Z2Qc_inj. lia. }
  field. done.
Qed.

(** C8 (zero-total exclusion).  Whenever [extract_file_coverage] returns,
    its output is, in the order of the report, the entries of the files
    that pass the filter and have [total > 0]; so no entry of the output has
    [total = 0], and every entry carries the percentage
    [covered / total * 100] of a division by a positive [total]
    (equivalently [percent * total = covered * 100]). *)
Theorem extract_file_coverage_zero_total_excluded cd stats :
  extract_file_coverage cd = Ok stats ->
  (exists files, files_of cd = Ok files /\
     stats = entry_of <$> filter eligible files)
  /\ Forall (fun e : entry =>
       st_total e.2 <> 0 /\
       0 < st_total e.2 /\
       pct e = percent (st_covered e.2) (st_total e.2) /\
       st_coverage e.2 = pct e /\
       (pct e * Qc_of_Z (st_total e.2)
        = Qc_of_Z (st_covered e.2) * Qc_of_Z 100)%Qc) stats.
Proof.
  intros (files & Hf & ->)%extract_file_coverage_Ok. split.
  - by exists files.
  - apply Forall_fmap, Forall_forall. intros fd Hfd.
    apply list_elem_of_filter in Hfd as [He _].
    unfold eligible in He. apply Is_true_true in He.
    apply andb_true_iff in He as [_ Ht]. apply Z.gtb_lt in Ht.
    simpl. unfold pct. simpl. repeat split; [lia|lia|].
    by apply percent_times_total.
Qed.

(** [sorted] is the stable ascending sort: its result is a permutation of
    the list, ordered by percentage, in which entries of equal percentage
    keep the order they had. *)
Lemma insert_sorted_Permutation x l : insert_sorted x l ≡ₚ x :: l.
Proof.
  induction l as [|y l IH]; simpl; [done|].
  case_bool_decide; [|done].
  rewrite IH. apply Permutation_swap.
Qed.

Lemma sorted_Permutation l : sorted l ≡ₚ l.
Proof.
  induction l as [|x l IH]; simpl; [done|].
  rewrite insert_sorted_Permutation. by rewrite IH.
Qed.

Lemma insert_sorted_ordered x l :
  StronglySorted by_pct l -> StronglySorted by_pct (insert_sorted x l).
Proof.
  induction 1 as [|y l Hl IH Hy]; simpl.
  - repeat constructor.
  - fold (pct y) (pct x). case_bool_decide as Hd.
    + constructor; [done|].
      rewrite insert_sorted_Permutation. constructor; [|done].
      by apply Qclt_le_weak.
    + apply Qcnot_lt_le in Hd. constructor; [by constructor|].
      constructor; [done|].
      eapply Forall_impl; [exact Hy|]. intros z Hz. unfold by_pct in *.
      by eapply Qcle_trans.
Qed.

Lemma sorted_ordered l : StronglySorted by_pct (sorted l).
Proof.
  induction l as [|x l IH]; simpl; [constructor|].
  by apply insert_sorted_ordered.
Qed.

(** Entries with the same percentage keep their order: the sort is stable. *)
Lemma insert_sorted_stable k x l :
  filter (fun e => pct e = k) (insert_sorted x l)
  = filter (fun e => pct e = k) (x :: l).
Proof.
  induction l as [|y l IH]; simpl; [done|].
  fold (pct y) (pct x). case_bool_decide as Hd; [|done].
  rewrite filter_cons, IH, !filter_cons.
  destruct (decide (pct y = k)) as [Hy|Hy], (decide (pct x = k)) as [Hx|Hx];
    try done.
  rewrite Hy, Hx in Hd. by apply Qclt_not_eq in Hd.
Qed.

Lemma sorted_stable k l :
  filter (fun e => pct e = k) (sorted l) = filter (fun e => pct e = k) l.
Proof.
  induction l as [|x l IH]; simpl; [done|].
  rewrite insert_sorted_stable, !filter_cons. by rewrite IH.
Qed.

Lemma sorted_head (l : list entry) :
  l <> [] ->
  exists l1 e l2 rest,
    l = l1 ++ e :: l2 /\ sorted l = e :: rest /\
    Forall (fun x => (pct e < pct x)%Qc) l1 /\
    Forall (fun x => (pct e <= pct x)%Qc) l2.
Proof.
  induction l as [|x l IH]; [done|]. intros _.
  destruct l as [|y l'].
  - exists [], x, [], []. simpl. auto.
  - destruct IH as (l1 & e & l2 & rest & Hl & Hs & H1 & H2); [done|].
    change (sorted (x :: y :: l')) with (insert_sorted x (sorted (y :: l'))).
    rewrite Hs, Hl. simpl. fold (pct e) (pct x).
    destruct (bool_decide (pct e < pct x)%Qc) eqn:Hd.
    + apply bool_decide_eq_true in Hd.
      exists (x :: l1), e, l2, (insert_sorted x rest).
      repeat split; auto.
    + apply bool_decide_eq_false in Hd. apply Qcnot_lt_le in Hd.
      exists [], x, (l1 ++ e :: l2), (e :: rest).
      repeat split; auto.
      apply Forall_app. split; [|constructor; [done|]].
      * eapply Forall_impl; [exact H1|]. intros z Hz. simpl in Hz.
        apply Qclt_le_weak. eapply Qcle_lt_trans; eauto.
      * eapply Forall_impl; [exact H2|]. intros z Hz. simpl in Hz.
        eapply Qcle_trans; eauto.
Qed.

(** C7 (worst-file selection).  On the empty sequence
    [find_least_covered_file] leaves with [sys.exit(1)].  On a non-empty
    sequence it returns the name and statistics of an entry [e] whose
    percentage is strictly below that of every entry before it and at most
    that of every entry after it: the minimum, and the first one among
    ties. *)
Theorem find_least_covered_file_first_minimum :
  find_least_covered_file [] = Raise (SystemExit 1)
  /\ forall file_stats : list entry,
       file_stats <> [] ->
       exists before e after,
         file_stats = before ++ e :: after /\
         find_least_covered_file file_stats = Ok (e.1.1, e.2) /\
         Forall (fun x => (pct e < pct x)%Qc) before /\
         Forall (fun x => (pct e <= pct x)%Qc) after.
Proof.
  split; [done|]. intros file_stats Hne.
  destruct (sorted_head file_stats Hne)
    as (before & e & after & rest & Heq & Hs & Hlt & Hle).
  exists before, e, after. repeat split; auto.
  unfold find_least_covered_file. rewrite Hs.
  destruct file_stats; [done|]. by destruct e as [[filename p] stats].
Qed.

Lemma overall_step_eligible acc fd :
  overall_step acc fd =
    if eligible fd then (acc.1 + 1, (acc.2 + pct (entry_of fd))%Qc) else acc.
Proof.
  destruct acc as [n t].
  unfold overall_step, eligible, skipped, entry_of, pct, line_total,
    line_covered, lines_of, name_of.
  destruct (endswith (lit ".rs") _); simpl; [|done].
  destruct (contains (lit "target/") _ || contains (lit ".cargo/") _); simpl; [done|].
  destruct (contains (lit "/tests/") _ || endswith (lit "_test.rs") _); simpl; [done|].
  done.
Qed.

Lemma overall_fold files : forall n t,
  fold_left overall_step files (n, t) =
    (n + Z.of_nat (length (filter eligible files)),
     fold_left Qcplus (pct <$> (entry_of <$> filter eligible files)) t).
Proof.
  induction files as [|fd files IH]; intros n t; cbn [fold_left].
  - simpl. f_equal. lia.
  - rewrite overall_step_eligible, filter_cons. cbn [fst snd].
    destruct (eligible fd); simpl; rewrite IH; [|done].
    f_equal. lia.
Qed.

(** In exact arithmetic the compensation of [sum_floats] never moves: the
    builtin [sum] gives the plain sum from left to right. *)
Lemma sum_floats_exact xs : forall f_result c,
  sum_floats xs f_result c = (fold_left Qcplus xs f_result + c)%Qc.
Proof.
  induction xs as [|x xs IH]; intros f_result c; cbn [sum_floats fold_left].
  - case_bool_decide as Hc; [|done].
    by rewrite Hc, Z2Qc_inj_0, Qcplus_0_r.
  - rewrite IH. f_equal. case_bool_decide; ring.
Qed.

Lemma sum_exact xs : sum xs = fold_left Qcplus xs (Qc_of_Z 0).
Proof.
  destruct xs as [|x xs]; [done|]. cbn [sum fold_left].
  by rewrite sum_floats_exact, Z2Qc_inj_0, Qcplus_0_r.
Qed.

Lemma calculate_overall_coverage_spec cd files :
  files_of cd = Ok files ->
  let stats := entry_of <$> filter eligible files in
  calculate_overall_coverage cd =
    Ok (if Z.of_nat (length stats) >? 0
        then {| total_files := Z.of_nat (length stats);
                average_coverage :=
                  (sum (pct <$> stats) / Qc_of_Z (Z.of_nat (length stats)))%Qc |}
        else {| total_files := 0; average_coverage := Qc_of_Z 0 |}).
Proof.
  intros Hf. cbn zeta.
  unfold calculate_overall_coverage, mbind, res_bind. rewrite Hf.
  rewrite overall_fold, length_fmap, sum_exact. simpl. rewrite Z.add_0_l.
  by destruct (Z.of_nat _ >? 0).
Qed.

(** The report stage on binary64 floats: the same filter and the same
    counter as in exact arithmetic, the percentages added one by one. *)
Lemma float_overall_step_eligible acc fd :
  float_model.overall_step acc fd =
    if eligible fd
    then (acc.1 + 1, PrimFloat.add acc.2 (float_pct (entry_of fd)))
    else acc.
Proof.
  destruct acc as [n t].
  unfold float_model.overall_step, eligible, skipped, entry_of, float_pct,
    line_total, line_covered, lines_of, name_of.
  destruct (endswith (lit ".rs") _); simpl; [|done].
  destruct (contains (lit "target/") _ || contains (lit ".cargo/") _); simpl; [done|].
  destruct (contains (lit "/tests/") _ || endswith (lit "_test.rs") _); simpl; [done|].
  done.
Qed.

Lemma float_overall_fold files : forall n t,
  fold_left float_model.overall_step files (n, t) =
    (n + Z.of_nat (length (filter eligible files)),
     fold_left PrimFloat.add
       (float_pct <$> (entry_of <$> filter eligible files)) t).
Proof.
  induction files as [|fd files IH]; intros n t; cbn [fold_left].
  - simpl. f_equal. lia.
  - rewrite float_overall_step_eligible, filter_cons. cbn [fst snd].
    destruct (eligible fd); simpl; rewrite IH; [|done].
    f_equal. lia.
Qed.

Lemma float_calculate_overall_coverage_spec cd files :
  files_of cd = Ok files ->
  let stats := entry_of <$> filter eligible files in
  float_model.calculate_overall_coverage cd =
    Ok (if Z.of_nat (length stats) >? 0
        then (Z.of_nat (length stats),
              PrimFloat.div
                (fold_left PrimFloat.add (float_pct <$> stats) PrimFloat.zero)
                (float_model.float_of_int (Z.of_nat (length stats))))
        else (0, PrimFloat.zero)).
Proof.
  intros Hf. cbn zeta.
  unfold float_model.calculate_overall_coverage, mbind, res_bind. rewrite Hf.
  rewrite float_overall_fold, length_fmap. simpl. rewrite Z.add_0_l.
  by destruct (Z.of_nat _ >? 0).
Qed.

Lemma overall_documents_agree cd file_stats :
  extract_file_coverage cd = Ok file_stats ->
  file_stats <> [] ->
  exists analysis overall,
    analyze_coverage.main cd = Ok (analysis, overall) /\
    calculate_overall_coverage cd = Ok overall /\
    total_files overall = Z.of_nat (length file_stats) /\
    average_coverage overall
    = (sum (pct <$> file_stats) / Qc_of_Z (Z.of_nat (length file_stats)))%Qc.
Proof.
  intros Hex Hne.
  pose proof Hex as (files & Hf & ->)%extract_file_coverage_Ok.
  destruct (sorted_head _ Hne) as (l1 & e & l2 & rest & _ & Hs & _).
  assert (find_least_covered_file (entry_of <$> filter eligible files)
          = Ok (e.1.1, e.2)) as Hfind.
  { unfold find_least_covered_file. rewrite Hs.
    destruct (entry_of <$> filter eligible files); [done|].
    by destruct e as [[filename p] st]. }
  set (stats := entry_of <$> filter eligible files) in *.
  exists (Analysis e.1.1 (st_coverage e.2) e.2),
    {| total_files := Z.of_nat (length stats);
       average_coverage :=
         (sum (pct <$> stats) / Qc_of_Z (Z.of_nat (length stats)))%Qc |}.
  split; [|split; [|split]].
  - unfold analyze_coverage.main. rewrite Hex. simpl. rewrite Hfind.
    destruct stats; [done|]. reflexivity.
  - rewrite (calculate_overall_coverage_spec _ _ Hf). fold stats.
    destruct stats; [done|]. reflexivity.
  - done.
  - done.
Qed.

(** C9 (the two stages agree), as the code has it.  For a report whose
    filtered sequence is non-empty, both stages keep the same files and
    report the same [total_files], the number of filtered entries, and each
    reports as [average_coverage] a sum of the same percentages, in the order
    of the report, divided by that number.  With the percentages taken as
    exact numbers the two documents are the same: [main] of the analyzer
    writes the document that [calculate_overall_coverage] returns, and the
    builtin [sum] gives the plain sum from left to right.  On binary64
    floats the analyzer divides the result of the builtin [sum], which
    carries a compensation term, and the report stage divides a total built
    by adding one percentage after the other; no equality of these two
    floats is stated. *)
Theorem overall_coverage_stages_agree cd file_stats :
  extract_file_coverage cd = Ok file_stats ->
  file_stats <> [] ->
  let n := Z.of_nat (length file_stats) in
  (exists analysis overall,
     analyze_coverage.main cd = Ok (analysis, overall) /\
     calculate_overall_coverage cd = Ok overall /\
     total_files overall = n /\
     average_coverage overall = (sum (pct <$> file_stats) / Qc_of_Z n)%Qc /\
     sum (pct <$> file_stats)
     = fold_left Qcplus (pct <$> file_stats) (Qc_of_Z 0))
  /\ float_model.analyzer_average file_stats
     = PrimFloat.div (float_model.sum (float_pct <$> file_stats))
         (float_model.float_of_int n)
  /\ float_model.calculate_overall_coverage cd
     = Ok (n, PrimFloat.div
                (fold_left PrimFloat.add (float_pct <$> file_stats)
                   PrimFloat.zero)
                (float_model.float_of_int n)).
Proof.
  intros Hex Hne n. split; [|split].
  - destruct (overall_documents_agree cd file_stats Hex Hne)
      as (analysis & overall & H1 & H2 & H3 & H4).
    exists analysis, overall. by rewrite <- sum_exact.
  - reflexivity.
  - pose proof Hex as (files & Hf & ->)%extract_file_coverage_Ok.
    rewrite (float_calculate_overall_coverage_spec _ _ Hf). subst n.
    destruct (entry_of <$> filter eligible files) as [|e stats]; [done|].
    reflexivity.
Qed.

(** C10 (empty filtered sequence).  For a report whose filtered sequence is
    empty, [calculate_overall_coverage] returns
    [{total_files: 0, average_coverage: 0.0}] without raising, while [main]
    of the analyzer leaves with [sys.exit(1)]. *)
Theorem calculate_overall_coverage_empty cd :
  extract_file_coverage cd = Ok [] ->
  calculate_overall_coverage cd
  = Ok {| total_files := 0; average_coverage := Qc_of_Z 0 |}
  /\ analyze_coverage.main cd = Raise (SystemExit 1).
Proof.
  intros Hex.
  pose proof Hex as (files & Hf & Hs)%extract_file_coverage_Ok.
  split.
  - rewrite (calculate_overall_coverage_spec _ _ Hf). by rewrite <- Hs.
  - unfold analyze_coverage.main. by rewrite Hex.
Qed.

(** Scenario A: [c] is left out, [b] is selected. *)
Example scenario_A_selection :
  (extract_file_coverage scenario_A ≫= find_least_covered_file)
  = Ok (lit "src/b.rs", (entry_of file_b).2).
Proof. vm_compute. reflexivity. Qed.

Lemma extract_file_coverage_zero_total_excluded_witness :
  extract_file_coverage scenario_A = Ok [entry_of file_a; entry_of file_b]
  /\ Forall (fun e : entry => st_total e.2 <> 0)
       [entry_of file_a; entry_of file_b].
Proof.
  assert (extract_file_coverage scenario_A
          = Ok [entry_of file_a; entry_of file_b]) as Hex
    by (vm_compute; reflexivity).
  split; [exact Hex|].
  destruct (extract_file_coverage_zero_total_excluded scenario_A
              [entry_of file_a; entry_of file_b] Hex) as [_ H].
  eapply Forall_impl; [exact H|]. intros e He. apply He.
Defined.

Lemma find_least_covered_file_first_minimum_witness :
  exists before e after,
    [entry_of file_a; entry_of file_b] = before ++ e :: after /\
    find_least_covered_file [entry_of file_a; entry_of file_b] = Ok (e.1.1, e.2) /\
    Forall (fun x => (pct e < pct x)%Qc) before /\
    Forall (fun x => (pct e <= pct x)%Qc) after.
Proof.
  apply (proj2 find_least_covered_file_first_minimum
           [entry_of file_a; entry_of file_b]).
  discriminate.
Defined.

Lemma overall_coverage_stages_agree_witness :
  exists analysis overall,
    analyze_coverage.main scenario_A = Ok (analysis, overall) /\
    calculate_overall_coverage scenario_A = Ok overall /\
    total_files overall = 2 /\
    average_coverage overall = Qc_of_Z 60.
Proof.
  destruct (overall_coverage_stages_agree scenario_A
              [entry_of file_a; entry_of file_b])
    as [(analysis & overall & H1 & H2 & H3 & H4 & _) _].
  - vm_compute. reflexivity.
  - discriminate.
  - exists analysis, overall. split; [exact H1|]. split; [exact H2|].
    split; [exact H3|]. rewrite H4. apply Qc_is_canon. reflexivity.
Defined.

(** On binary64 floats the two stages do not always agree to the last bit:
    for files at 1/1, 1/3 and 1/6 the analyzer, which uses the builtin
    [sum], writes 50.0, and the report stage, which adds in a loop, returns
    49.99999999999999 (the float [0x1.8ffffffffffffp+5]). *)
Lemma stages_average_counterexample :
  extract_file_coverage thirds_report
  = Ok [entry_of file_whole; entry_of file_third; entry_of file_sixth]
  /\ float_model.analyzer_average
       [entry_of file_whole; entry_of file_third; entry_of file_sixth]
     = 50%float
  /\ float_model.calculate_overall_coverage thirds_report
     = Ok (3, 0x1.8ffffffffffffp+5%float)
  /\ PrimFloat.eqb
       (float_model.analyzer_average
          [entry_of file_whole; entry_of file_third; entry_of file_sixth])
       0x1.8ffffffffffffp+5%float = false.
Proof. vm_compute. repeat split; reflexivity. Qed.

Lemma calculate_overall_coverage_empty_witness :
  calculate_overall_coverage report_without_lines
  = Ok {| total_files := 0; average_coverage := Qc_of_Z 0 |}
  /\ analyze_coverage.main report_without_lines = Raise (SystemExit 1).
Proof.
  apply calculate_overall_coverage_empty. vm_compute. reflexivity.
Defined.

(** ** Validation (validate_tests.py) *)

Lemma backup_path_ne (p suffix : str) : suffix <> [] -> p ++ suffix <> p.
Proof.
  intros Hs He. apply (f_equal length) in He. rewrite length_app in He.
  destruct suffix; [done | simpl in He; lia].
Qed.

Lemma backup_of_ne p : backup_of p <> p.
Proof. apply backup_path_ne. done. Qed.

Lemma validate_tests_unfold o test orig w c0 :
  files w !! orig = Some c0 ->
  validate_tests o test orig w =
    let fs1 := <[backup_of orig := c0]> (files w) in
    let st := staged o test orig fs1 in
    let fs3 := if success w then st.2 else <[orig := c0]> st.2 in
    (Ok st.1, with_files (delete (backup_of orig) fs3) w).
Proof.
  intros Ho. pose proof (backup_of_ne orig) as Hne.
  destruct w as [fs mf flag h]. destruct o as [chk tst]. simpl in *.
  unfold validate_tests, staged, passes. fold (backup_of orig).
  unfold mbind, M_bind, copy2 at 1. simpl. rewrite Ho.
  destruct (decide (orig = backup_of orig)) as [E|_]; [by symmetry in E|].
  unfold try_finally, try_except, copy2, run, raise, handlers, get_success,
    exists_, unlink, pass, mbind, M_bind, mret, M_ret, with_files. simpl.
  destruct (<[backup_of orig:=c0]> fs !! test) as [c|] eqn:Ht; simpl.
  - destruct (decide (test = orig)) as [->|Hto]; simpl.
    + destruct flag; simpl; simplify_map_eq; done.
    + destruct chk as [[|?|?]| |], tst as [[|?|?]| |], flag; simpl; simplify_map_eq; try done.
  - destruct flag; simpl; simplify_map_eq; try done.
Qed.

Lemma validate_tests_missing o test orig w :
  files w !! orig = None ->
  validate_tests o test orig w = (Raise FileNotFoundError, w).
Proof.
  intros Ho. unfold validate_tests, mbind, M_bind, copy2 at 1. by rewrite Ho.
Qed.

Lemma staged_false o test orig fs1 :
  (staged o test orig fs1).1 = false -> 
  (staged o test orig fs1).2 = fs1 \/
  exists c, test <> orig /\ fs1 !! test = Some c /\ (staged o test orig fs1).2 = <[orig := c]> fs1.
Proof.
  unfold staged. destruct (fs1 !! test) as [c|]; [|by left].
  destruct (decide (test = orig)); [by left|]. right. by exists c.
Qed.

Lemma staged_true o test orig fs1 :
  (staged o test orig fs1).1 = true -> 
  exists c, test <> orig /\ fs1 !! test = Some c /\ (staged o test orig fs1).2 = <[orig := c]> fs1.
Proof.
  unfold staged. destruct (fs1 !! test) as [c|]; [|done].
  destruct (decide (test = orig)); [done|]. by exists c.
Qed.

(** After a call made with the flag down, the original is back. *)
Lemma validate_tests_restores o test orig w :
  success w = false ->
  files (validate_tests o test orig w).2 !! orig = files w !! orig.
Proof.
  intros Hf. destruct (files w !! orig) as [c0|] eqn:Ho.
  - rewrite (validate_tests_unfold _ _ _ _ _ Ho). simpl. rewrite Hf.
    rewrite lookup_delete_ne by apply backup_of_ne.
    by rewrite lookup_insert_eq.
  - by rewrite (validate_tests_missing _ _ _ _ Ho).
Qed.

Lemma validate_tests_two_states o test orig w :
  files (validate_tests o test orig w).2 !! orig = files w !! orig \/
  files (validate_tests o test orig w).2 !! orig = files w !! test.
Proof.
  destruct (success w) eqn:Hf; [|left; by apply validate_tests_restores].
  destruct (files w !! orig) as [c0|] eqn:Ho.
  - rewrite (validate_tests_unfold _ _ _ _ _ Ho). simpl. rewrite Hf.
    rewrite lookup_delete_ne by apply backup_of_ne.
    unfold staged.
    destruct (<[backup_of orig:=c0]> (files w) !! test) as [c|] eqn:Ht; simpl.
    + destruct (decide (test = orig)) as [->|Hto]; simpl.
      * left. rewrite lookup_insert_ne by apply backup_of_ne. done.
      * rewrite lookup_insert_eq.
        destruct (decide (backup_of orig = test)) as [<-|Hb].
        -- rewrite lookup_insert_eq in Ht. left. congruence.
        -- rewrite lookup_insert_ne in Ht by done. right. congruence.
    + left. rewrite lookup_insert_ne by apply backup_of_ne. done.
  - rewrite (validate_tests_missing _ _ _ _ Ho). by left.
Qed.

Lemma validate_tests_frame o test orig w :
  metadata_file (validate_tests o test orig w).2 = metadata_file w /\
  success (validate_tests o test orig w).2 = success w /\
  history (validate_tests o test orig w).2 = history w.
Proof.
  destruct (files w !! orig) as [c0|] eqn:Ho.
  - by rewrite (validate_tests_unfold _ _ _ _ _ Ho).
  - by rewrite (validate_tests_missing _ _ _ _ Ho).
Qed.

Section driver.
Variable oracles : Z -> oracle.
Variable md : metadata.
Variables test orig : str.

Lemma attempt_loop_cons a rest w :
  attempt_loop oracles md test orig (a :: rest) w =
    let r := (validate_tests (oracles a) test orig w).1 in
    let w1 := after_call test orig r w (validate_tests (oracles a) test orig w).2 in
    match r with
    | Raise e => (Raise e, w1)
    | Ok true =>
        match copy2 test orig (with_success true w1) with
        | (Ok _, w2) =>
            (Raise (SystemExit 0),
             with_metadata_file (Some (record_result md true a)) w2)
        | (Raise e, w2) => (Raise e, w2)
        end
    | Ok false =>
        attempt_loop oracles md test orig rest (with_success false w1)
    end.
Proof.
  cbn [attempt_loop]. unfold mbind at 1, M_bind at 1, logged, after_call.
  destruct (validate_tests (oracles a) test orig w) as [[[]|e] w0]; simpl; done.
Qed.

Lemma copy2_history src dst w : history (copy2 src dst w).2 = history w.
Proof. unfold copy2. destruct (files w !! src); [case_decide|]; done. Qed.

Lemma copy2_metadata_file src dst w :
  metadata_file (copy2 src dst w).2 = metadata_file w.
Proof. unfold copy2. destruct (files w !! src); [case_decide|]; done. Qed.

Lemma attempt_loop_history range : forall w,
  exists more,
    history (attempt_loop oracles md test orig range w).2 = history w ++ more
    /\ (length more <= length range)%nat
    /\ (success w = false ->
        Forall (fun c => call_flag c = false /\
                  call_after c !! call_original c
                  = call_before c !! call_original c) more).
Proof.
  induction range as [|a rest IH]; intros w.
  - exists []. simpl. rewrite app_nil_r. auto with lia.
  - rewrite attempt_loop_cons. cbn zeta.
    pose proof (validate_tests_frame (oracles a) test orig w) as (_ & Hs & Hh).
    pose proof (validate_tests_restores (oracles a) test orig w) as Hr.
    destruct (validate_tests (oracles a) test orig w) as [r w0] eqn:Hv.
    simpl in *.
    set (c := Call test orig (success w) (files w) (files w0) r).
    assert (Hc : success w = false ->
                 call_flag c = false /\
                 call_after c !! call_original c = call_before c !! call_original c)
      by (intros Hf; split; [done | by apply Hr]).
    destruct r as [[]|e].
    + pose proof (copy2_history test orig
                    (with_success true (after_call test orig (Ok true) w w0))) as H2.
      exists [c].
      destruct (copy2 test orig _) as [[[]|e] w2]; simpl in *;
        rewrite H2, Hh; (split; [done|]); (split; [lia|]);
        intros Hf; constructor; auto.
    + destruct (IH (with_success false (after_call test orig (Ok false) w w0)))
        as (more & Hm & Hl & HP).
      exists (c :: more). rewrite Hm. simpl. rewrite Hh, <- app_assoc. simpl.
      split; [done|]. split; [lia|]. intros Hf. constructor; auto.
    + exists [c]. simpl. rewrite Hh. split; [done|]. split; [simpl; lia|].
      intros Hf. constructor; auto.
Qed.

Lemma validate_tests_candidate_kept o w :
  success w = false -> test <> backup_of orig ->
  files (validate_tests o test orig w).2 !! test = files w !! test.
Proof.
  intros Hf Hb. destruct (files w !! orig) as [c0|] eqn:Ho.
  - rewrite (validate_tests_unfold _ _ _ _ _ Ho). simpl. rewrite Hf.
    rewrite lookup_delete_ne by done.
    destruct (decide (test = orig)) as [->|Hto].
    + by rewrite lookup_insert_eq.
    + rewrite lookup_insert_ne by done. unfold staged.
      destruct (<[backup_of orig:=c0]> (files w) !! test) as [c|] eqn:Ht; simpl.
      * destruct (decide (test = orig)); [done|]. simpl.
        rewrite lookup_insert_ne by done. by rewrite lookup_insert_ne.
      * by rewrite lookup_insert_ne.
  - by rewrite (validate_tests_missing _ _ _ _ Ho).
Qed.

(** A call that returns [True] found both files, on two different paths. *)
Lemma validate_tests_true o w :
  (validate_tests o test orig w).1 = Ok true ->
  test <> orig /\ is_Some (files w !! orig) /\
  (test <> backup_of orig -> is_Some (files w !! test)).
Proof.
  destruct (files w !! orig) as [c0|] eqn:Ho.
  - rewrite (validate_tests_unfold _ _ _ _ _ Ho). simpl. intros [= Hst].
    apply staged_true in Hst as (c & Hto & Ht & _).
    split; [done|]. split; [by eexists|]. intros Hb.
    rewrite lookup_insert_ne in Ht by done. by eexists.
  - by rewrite (validate_tests_missing _ _ _ _ Ho).
Qed.

Lemma attempt_loop_metadata range : forall w,
  metadata_file (attempt_loop oracles md test orig range w).2 = metadata_file w
  \/ exists a, a ∈ range /\
       metadata_file (attempt_loop oracles md test orig range w).2
       = Some (record_result md true a).
Proof.
  induction range as [|a rest IH]; intros w; [by left|].
  rewrite attempt_loop_cons. cbn zeta.
  pose proof (validate_tests_frame (oracles a) test orig w) as (Hm & _ & _).
  destruct (validate_tests (oracles a) test orig w) as [r w0]. simpl in *.
  destruct r as [[]|e].
  - pose proof (copy2_metadata_file test orig
                  (with_success true (after_call test orig (Ok true) w w0))) as H2.
    destruct (copy2 test orig _) as [[[]|e] w2]; simpl in *.
    + right. exists a. split; [left|done].
    + left. congruence.
  - destruct (IH (with_success false (after_call test orig (Ok false) w w0)))
      as [H|(b & Hb & H)].
    + left. rewrite H. done.
    + right. exists b. split; [by right|done].
  - by left.
Qed.

Lemma attempt_loop_all_fail range : forall w,
  success w = false ->
  Forall (fun c => call_result c = Ok false)
    (history (attempt_loop oracles md test orig range w).2) ->
  (attempt_loop oracles md test orig range w).1 = Ok () /\
  files (attempt_loop oracles md test orig range w).2 !! orig = files w !! orig /\
  metadata_file (attempt_loop oracles md test orig range w).2 = metadata_file w /\
  length (history (attempt_loop oracles md test orig range w).2)
  = (length (history w) + length range)%nat.
Proof.
  induction range as [|a rest IH]; intros w Hf Hall.
  - simpl. auto with lia.
  - revert Hall. rewrite attempt_loop_cons. cbn zeta.
    pose proof (validate_tests_frame (oracles a) test orig w) as (Hm & Hs & Hh).
    pose proof (validate_tests_restores (oracles a) test orig w Hf) as Hr.
    destruct (validate_tests (oracles a) test orig w) as [r w0]. simpl in *.
    destruct r as [[]|e].
    + pose proof (copy2_history test orig
                    (with_success true (after_call test orig (Ok true) w w0))) as H2.
      destruct (copy2 test orig _) as [[[]|e] w2]; simpl in *;
        rewrite H2; intros Hall; apply Forall_app in Hall as [_ Hall];
        by inversion Hall.
    + intros Hall.
      destruct (IH (with_success false (after_call test orig (Ok false) w w0)))
        as (H1 & H2 & H3 & H4); [done|done|].
      rewrite H1, H2, H3, H4. simpl. rewrite length_app. simpl.
      rewrite Hh. repeat split; auto with lia.
    + simpl. intros Hall. apply Forall_app in Hall as [_ Hall].
      by inversion Hall.
Qed.

Lemma attempt_loop_success range : forall w n c,
  success w = false -> test <> backup_of orig ->
  history (attempt_loop oracles md test orig range w).2
    !! (length (history w) + n)%nat = Some c ->
  call_result c = Ok true ->
  exists a, range !! n = Some a /\
    (attempt_loop oracles md test orig range w).1 = Raise (SystemExit 0) /\
    is_Some (files w !! test) /\
    files (attempt_loop oracles md test orig range w).2 !! orig
    = files w !! test /\
    metadata_file (attempt_loop oracles md test orig range w).2
    = Some (record_result md true a) /\
    length (history (attempt_loop oracles md test orig range w).2)
    = (length (history w) + n + 1)%nat.
Proof.
  induction range as [|a rest IH]; intros w n c Hf Hb.
  - simpl. intros Hl. apply lookup_lt_Some in Hl. lia.
  - pose proof (attempt_loop_history rest) as Hext.
    revert Hext. rewrite attempt_loop_cons. cbn zeta.
    pose proof (validate_tests_frame (oracles a) test orig w) as (Hm & Hs & Hh).
    pose proof (validate_tests_candidate_kept (oracles a) w Hf Hb) as Hk.
    pose proof (validate_tests_true (oracles a) w) as Ht.
    destruct (validate_tests (oracles a) test orig w) as [r w0]. simpl in *.
    destruct r as [[]|e]; intros Hext.
    + destruct Ht as (Hto & Ho & Hc); [done|]. specialize (Hc Hb).
      destruct Hc as [cc Hcc].
      unfold copy2. simpl. rewrite Hk, Hcc.
      destruct (decide (test = orig)); [done|]. simpl.
      rewrite Hh. intros Hl Hres.
      destruct n as [|n].
      * exists a. rewrite lookup_insert_eq, length_app. simpl.
        repeat split; eauto with lia.
      * apply lookup_lt_Some in Hl. rewrite length_app in Hl. simpl in Hl. lia.
    + destruct (Hext (with_success false (after_call test orig (Ok false) w w0)))
        as (more & Hmore & _). simpl in Hmore.
      intros Hl Hres. destruct n as [|n].
      * rewrite Hmore, Hh in Hl.
        rewrite <- app_assoc, lookup_app_r in Hl by lia.
        replace (length (history w) + 0 - length (history w))%nat with 0%nat
          in Hl by lia.
        simpl in Hl. injection Hl as <-. done.
      * destruct (IH (with_success false (after_call test orig (Ok false) w w0)) n c)
          as (b & Hb1 & Hb2 & Hb3 & Hb4 & Hb5 & Hb6); [done|done| |done|].
        { simpl. rewrite length_app, Hh. simpl.
          replace (length (history w) + 1 + n)%nat
            with (length (history w) + S n)%nat by lia. done. }
        exists b. simpl in *. rewrite Hk in Hb3, Hb4.
        rewrite length_app, Hh in Hb6. simpl in Hb6.
        repeat split; auto with lia.
    + simpl. rewrite Hh. intros Hl Hres. destruct n as [|n].
      * rewrite lookup_app_r in Hl by lia.
        replace (length (history w) + 0 - length (history w))%nat with 0%nat
          in Hl by lia.
        simpl in Hl. injection Hl as <-. done.
      * apply lookup_lt_Some in Hl. rewrite length_app in Hl. simpl in Hl. lia.
Qed.
End driver.

Lemma main_unfold oracles w md test orig :
  metadata_file w = Some md ->
  generated_tests_path md = Some test ->
  original_file md = Some orig ->
  main oracles w =
    match attempt_loop oracles md test orig [1; 2; 3] w with
    | (Ok _, w') =>
        (Raise (SystemExit 1),
         with_metadata_file (Some (record_result md false 3)) w')
    | (Raise e, w') => (Raise e, w')
    end.
Proof.
  intros Hm Ht Ho. unfold main, mbind, M_bind, load_metadata.
  rewrite Hm, Ht, Ho. simpl.
  destruct (attempt_loop oracles md test orig [1; 2; 3] w) as [[[]|e] w']; done.
Qed.

(** Before the loop starts [main] neither calls [validate_tests] nor writes. *)
Lemma main_early oracles w :
  (metadata_file w = None \/
   exists md, metadata_file w = Some md /\
     (generated_tests_path md = None \/ original_file md = None)) ->
  (main oracles w).2 = w.
Proof.
  unfold main, mbind, M_bind, load_metadata.
  intros [Hm|(md & Hm & Hk)]; rewrite Hm; [done|]. simpl.
  destruct (generated_tests_path md); simpl; [|done].
  destruct Hk as [Hk|Hk]; [done|]. by rewrite Hk.
Qed.

Arguments attempt_loop : simpl never.

(** C1 (all or nothing).  Whatever the two cargo commands do, whatever the
    value of [validate_tests.success] and whatever files exist, when a call
    of [validate_tests] ends the file at the original path holds what it held
    before the call or what the candidate path held before the call.  In
    every run of [main], each call of [validate_tests] is made with
    [validate_tests.success = False], and so ends with the original path
    holding what it held before the call. *)
Theorem validate_tests_all_or_nothing :
  (forall o test orig w,
     files (validate_tests o test orig w).2 !! orig = files w !! orig \/
     files (validate_tests o test orig w).2 !! orig = files w !! test)
  /\ (forall oracles fs mf,
        Forall restored (history (main oracles (initial fs mf)).2)).
Proof.
  split; [apply validate_tests_two_states|].
  intros oracles fs mf.
  destruct mf as [md|]; [|by rewrite main_early; [constructor | left]].
  destruct (generated_tests_path md) as [test|] eqn:Ht;
    [|rewrite main_early; [constructor | right; eauto]].
  destruct (original_file md) as [orig|] eqn:Ho;
    [|rewrite main_early; [constructor | right; eauto]].
  rewrite (main_unfold _ _ md test orig) by done.
  destruct (attempt_loop_history oracles md test orig [1; 2; 3] (initial fs (Some md)))
    as (more & Hm & _ & HP).
  specialize (HP eq_refl). simpl in Hm.
  destruct (attempt_loop _ _ _ _ _ _) as [[[]|e] w']; simpl in *; by rewrite Hm.
Qed.

(** C2 (exhaustion).  If the metadata names both paths and every call of
    [validate_tests] made by [main] returns [False], then [main] makes three
    calls, writes the metadata with [validation_success = False] and
    [validation_attempts = 3], leaves the original path with the content it
    had at the start, and exits with code 1. *)
Theorem main_exhaustion oracles fs md test orig :
  generated_tests_path md = Some test ->
  original_file md = Some orig ->
  Forall (fun c => call_result c = Ok false)
    (history (main oracles (initial fs (Some md))).2) ->
  let out := main oracles (initial fs (Some md)) in
  metadata_file out.2 = Some (record_result md false 3)
  /\ validation_success (record_result md false 3) = Some false
  /\ validation_attempts (record_result md false 3) = Some 3
  /\ files out.2 !! orig = fs !! orig
  /\ out.1 = Raise (SystemExit 1)
  /\ exit_code out.1 <> 0
  /\ length (history out.2) = 3%nat.
Proof.
  intros Ht Ho. cbn zeta.
  rewrite (main_unfold _ _ md test orig) by done.
  intros Hall.
  destruct (attempt_loop_all_fail oracles md test orig [1; 2; 3]
              (initial fs (Some md))) as (H1 & H2 & H3 & H4); [done| |].
  { destruct (attempt_loop _ _ _ _ _ _) as [[[]|e] w']; done. }
  destruct (attempt_loop _ _ _ _ _ _) as [[[]|e] w']; simpl in *; [|done].
  repeat split; auto. 
Qed.

(** C3 (retry bound and success), as the code has it.  No run of [main]
    calls [validate_tests] more than three times, and metadata written by
    [main] has [validation_attempts] between 1 and 3.  If the metadata names
    both paths, the candidate is not stored at the backup path of the
    original (the original path followed by [.backup], which every call
    overwrites and then removes), and the [N]-th call returns [True], then
    [N <= 3], [main] stops after that call, the original path holds the
    candidate content, the metadata written has [validation_success = True]
    and [validation_attempts = N], and [main] exits with code 0. *)
Theorem main_retry_bound_and_success :
  (forall oracles fs mf,
     let out := main oracles (initial fs mf) in
     (length (history out.2) <= 3)%nat /\
     (metadata_file out.2 = mf \/
      exists md k, metadata_file out.2 = Some md /\
        validation_attempts md = Some k /\ 1 <= k <= 3))
  /\ (forall oracles fs md test orig (N : nat) c,
        generated_tests_path md = Some test ->
        original_file md = Some orig ->
        test <> orig ++ lit ".backup" ->
        (1 <= N)%nat ->
        history (main oracles (initial fs (Some md))).2 !! (N - 1)%nat = Some c ->
        call_result c = Ok true ->
        let out := main oracles (initial fs (Some md)) in
        (N <= 3)%nat
        /\ length (history out.2) = N
        /\ is_Some (fs !! test)
        /\ files out.2 !! orig = fs !! test
        /\ metadata_file out.2 = Some (record_result md true (Z.of_nat N))
        /\ validation_success (record_result md true (Z.of_nat N)) = Some true
        /\ validation_attempts (record_result md true (Z.of_nat N))
           = Some (Z.of_nat N)
        /\ out.1 = Raise (SystemExit 0)).
Proof.
  split.
  - intros oracles fs mf. cbn zeta.
    destruct mf as [md|]; [|by rewrite main_early; [simpl; auto with lia | left]].
    destruct (generated_tests_path md) as [test|] eqn:Ht;
      [|rewrite main_early; [simpl; auto with lia | right; eauto]].
    destruct (original_file md) as [orig|] eqn:Ho;
      [|rewrite main_early; [simpl; auto with lia | right; eauto]].
    rewrite (main_unfold _ _ md test orig) by done.
    destruct (attempt_loop_history oracles md test orig [1; 2; 3]
                (initial fs (Some md))) as (more & Hm & Hl & _).
    pose proof (attempt_loop_metadata oracles md test orig [1; 2; 3]
                  (initial fs (Some md))) as Hmd.
    simpl in Hm, Hl, Hmd.
    destruct (attempt_loop _ _ _ _ _ _) as [[[]|e] w']; simpl in *.
    + rewrite Hm. split; [done|]. right.
      exists (record_result md false 3), 3. simpl. auto with lia.
    + rewrite Hm. split; [done|].
      destruct Hmd as [Hmd|(a & Ha & Hmd)]; [by left|]. right.
      exists (record_result md true a), a. simpl. split; [done|]. split; [done|].
      repeat (apply elem_of_cons in Ha as [->|Ha]; [lia|]).
      by apply elem_of_nil in Ha.
  - intros oracles fs md test orig N c Ht Ho Hb HN. cbn zeta.
    rewrite (main_unfold _ _ md test orig) by done.
    intros Hl Hres.
    destruct (attempt_loop_success oracles md test orig [1; 2; 3]
                (initial fs (Some md)) (N - 1)%nat c)
      as (a & Ha & H1 & H2 & H3 & H4 & H5); [done|done| |done|].
    { destruct (attempt_loop _ _ _ _ _ _) as [[[]|e] w']; done. }
    assert (a = Z.of_nat N /\ (N <= 3)%nat) as [-> HN3].
    { destruct N as [|[|[|[|N]]]]; simpl in Ha; try lia;
        try (injection Ha as <-; split; lia).
      replace (S (S (S (S N))) - 1)%nat with (S (S (S N))) in Ha by lia.
      done. }
    destruct (attempt_loop _ _ _ _ _ _) as [[[]|e] w']; simpl in *; [done|].
    repeat split; auto with lia.
Qed.

Lemma main_exhaustion_witness :
  let out := main scenario_E (initial disk (Some generated_metadata)) in
  metadata_file out.2 = Some (record_result generated_metadata false 3)
  /\ files out.2 !! target_path = Some original_bytes
  /\ exit_code out.1 <> 0.
Proof.
  destruct (main_exhaustion scenario_E disk generated_metadata
              candidate_path target_path)
    as (H1 & _ & _ & H2 & _ & H3 & _).
  - reflexivity.
  - reflexivity.
  - vm_compute. repeat constructor.
  - split; [exact H1|]. split; [|exact H3].
    rewrite H2. vm_compute. reflexivity.
Defined.

Lemma main_retry_bound_and_success_witness :
  let out := main scenario_D (initial disk (Some generated_metadata)) in
  files out.2 !! target_path = Some candidate_bytes
  /\ metadata_file out.2 = Some (record_result generated_metadata true 3)
  /\ out.1 = Raise (SystemExit 0).
Proof.
  destruct (proj2 main_retry_bound_and_success scenario_D disk
              generated_metadata candidate_path target_path 3%nat
              (Call candidate_path target_path false disk disk (Ok true)))
    as (_ & _ & _ & H1 & H2 & _ & _ & H3).
  - reflexivity.
  - reflexivity.
  - vm_compute. discriminate.
  - lia.
  - vm_compute. reflexivity.
  - reflexivity.
  - split; [|split; [exact H2 | exact H3]].
    rewrite H1. vm_compute. reflexivity.
Defined.

(** With the candidate stored at the backup path of the target, the first
    call of [validate_tests] returns [True], but it has overwritten and then
    removed the candidate: [apply_tests] raises, nothing is recorded, the
    target keeps the original content and the exit code is 1. *)
Lemma success_counterexample :
  let out := main (fun _ => all_green)
               (initial aliased_disk (Some aliased_metadata)) in
  (call_result <$> history out.2 !! 0%nat) = Some (Ok true)
  /\ out.1 = Raise FileNotFoundError
  /\ exit_code out.1 = 1
  /\ metadata_file out.2 = Some aliased_metadata
  /\ files out.2 !! target_path = Some original_bytes
  /\ aliased_disk !! backup_of target_path = Some candidate_bytes
  /\ original_bytes <> candidate_bytes.
Proof. vm_compute. repeat split; congruence. Qed.

(** ** Further properties of the splice (generate_tests.py) *)

Lemma split_not_nil sep s : split sep s <> [].
Proof.
  destruct s as [|c s]; simpl; [done|].
  destruct (c =? sep)%N; [done|]. by destruct (split sep s).
Qed.

Lemma join_cons sep l ls :
  ls <> [] -> join sep (l :: ls) = l ++ sep ++ join sep ls.
Proof. by destruct ls. Qed.

Lemma join_split_inverse s : join [NL] (split NL s) = s.
Proof.
  induction s as [|c s IH]; [done|]. simpl.
  destruct (c =? NL)%N eqn:Hc.
  - apply N.eqb_eq in Hc as ->.
    rewrite join_cons by apply split_not_nil. simpl. by rewrite IH.
  - pose proof (split_not_nil NL s) as Hn.
    destruct (split NL s) as [|l ls]; [done|].
    destruct ls as [|l' ls]; simpl in *; by rewrite <- IH.
Qed.

Lemma join_app sep (A B : list str) :
  A <> [] -> B <> [] -> join sep (A ++ B) = join sep A ++ sep ++ join sep B.
Proof.
  intros HA HB. induction A as [|a A IH]; [done|].
  destruct A as [|a' A].
  - simpl app. by rewrite join_cons.
  - change ((a :: a' :: A) ++ B) with (a :: ((a' :: A) ++ B)).
    rewrite !join_cons by done. rewrite IH by done.
    by rewrite <- !app_assoc.
Qed.

Lemma scan_lines_range ls : forall i b bc,
  scan_lines ls i b bc = -1 \/
  i <= scan_lines ls i b bc < i + Z.of_nat (length ls).
Proof.
  induction ls as [|l ls IH]; intros i b bc; [by left|].
  cbn [scan_lines length].
  destruct (contains MARKER l).
  - destruct (IH (i + 1) true bc) as [->|H]; [by left | right; lia].
  - destruct b.
    + destruct (_ && _).
      * right. lia.
      * destruct (IH (i + 1) true (bc + count LBRACE l - count RBRACE l))
          as [->|H]; [by left | right; lia].
    + destruct (IH (i + 1) false bc) as [->|H]; [by left | right; lia].
Qed.

Lemma integrate_tests_shape (original generated : str) :
  (exists head tail,
     original = head ++ tail /\ head <> [] /\ last head = Some NL /\
     integrate_tests_into_file original generated
     = head ++ [NL] ++ generated ++ [NL] ++ tail)
  \/ integrate_tests_into_file original generated
     = original ++ WRAPPER_HEAD ++ generated ++ WRAPPER_TAIL.
Proof.
  unfold integrate_tests_into_file.
  destruct (contains MARKER original); [|by right]. cbn zeta.
  destruct (scan_lines_range (split NL original) 0 false 0) as [->|[Hlo Hhi]];
    [by right|].
  destruct (scan_lines (split NL original) 0 false 0 >? 0) eqn:Hpos;
    [|by right].
  apply Z.gtb_lt in Hpos. left.
  set (p := Z.to_nat (scan_lines (split NL original) 0 false 0)).
  set (lines := split NL original) in *.
  assert (0 < p < length lines)%nat as Hp by (unfold p; lia).
  assert (lines = take p lines ++ drop p lines) as Hl
    by (by rewrite take_drop).
  assert (length (take p lines) = p) as Hlen by (rewrite length_take; lia).
  assert (take p lines <> []) as HA.
  { intros H. rewrite H in Hlen. simpl in Hlen. lia. }
  assert (drop p lines <> []) as HB.
  { intros H. apply (f_equal length) in H. rewrite length_drop in H.
    simpl in H. lia. }
  assert (list_insert p [] (list_insert p generated lines)
          = take p lines ++ [] :: generated :: drop p lines) as Hins.
  { rewrite Hl at 1. rewrite <- Hlen at 1 2. apply list_insert_twice. }
  fold p. rewrite Hins.
  exists (join [NL] (take p lines) ++ [NL]), (join [NL] (drop p lines)).
  split; [|split; [|split]].
  - rewrite <- (join_split_inverse original). fold lines.
    rewrite Hl at 1. rewrite join_app by done. by rewrite <- app_assoc.
  - by destruct (join [NL] (take p lines)).
  - by rewrite last_snoc.
  - rewrite join_app by done.
    rewrite (join_cons [NL] [] (generated :: drop p lines)) by done.
    rewrite (join_cons [NL] generated (drop p lines)) by done.
    simpl. by rewrite <- !app_assoc.
Qed.

Lemma count_app c (a b : str) : count c (a ++ b) = count c a + count c b.
Proof. induction a as [|d a IH]; simpl; [done|]. rewrite IH. lia. Qed.

(** X1 (the splice keeps the original).  The result of
    [integrate_tests_into_file] is the original text with one block put in
    at one place and nothing removed or changed: either a line break, the
    generated code and a line break, put in right after a line break of the
    original, or the synthesized module around the generated code, put at
    the end. *)
Theorem integrate_tests_keeps_original (original generated : str) :
  exists head tail opening closing,
    original = head ++ tail /\
    integrate_tests_into_file original generated
    = head ++ opening ++ generated ++ closing ++ tail /\
    ((opening = [NL] /\ closing = [NL] /\ last head = Some NL)
     \/ (tail = [] /\ opening = WRAPPER_HEAD /\ closing = WRAPPER_TAIL)).
Proof.
  destruct (integrate_tests_shape original generated)
    as [(head & tail & Ho & _ & Hl & Hr)|Hr].
  - exists head, tail, [NL], [NL]. split; [done|]. split; [done|]. by left.
  - exists original, [], WRAPPER_HEAD, WRAPPER_TAIL.
    split; [by rewrite app_nil_r|]. split; [|by right].
    rewrite Hr. by rewrite app_nil_r.
Qed.

(** X2 (brace balance of the splice).  What [integrate_tests_into_file]
    adds of its own has as many opening as closing braces: the number of
    opening braces minus the number of closing braces of the result is that
    of the original plus that of the generated code. *)
Theorem integrate_tests_brace_balance (original generated : str) :
  delta (integrate_tests_into_file original generated)
  = delta original + delta generated.
Proof.
  unfold delta.
  destruct (integrate_tests_shape original generated)
    as [(head & tail & -> & _ & _ & ->) | ->].
  - rewrite !count_app.
    change (count LBRACE [NL]) with 0. change (count RBRACE [NL]) with 0.
    lia.
  - rewrite !count_app.
    change (count LBRACE WRAPPER_HEAD) with 1.
    change (count LBRACE WRAPPER_TAIL) with 0.
    change (count RBRACE WRAPPER_HEAD) with 0.
    change (count RBRACE WRAPPER_TAIL) with 1.
    lia.
Qed.

(** ** Further properties of the extraction (generate_tests.py) *)

Lemma lstrip_suffix s : exists a, s = a ++ lstrip s.
Proof.
  induction s as [|c s [a IH]]; [by exists []|]. simpl.
  destruct (isspace c); [|by exists []].
  exists (c :: a). simpl. by rewrite <- IH.
Qed.

Lemma rstrip_prefix s : exists b, s = rstrip s ++ b.
Proof.
  unfold rstrip. destruct (lstrip_suffix (rev s)) as [a Ha].
  exists (rev a). rewrite <- rev_app_distr, <- Ha. by rewrite rev_involutive.
Qed.

Lemma strip_infix s : exists a b, s = a ++ strip s ++ b.
Proof.
  unfold strip. destruct (lstrip_suffix s) as [a Ha].
  destruct (rstrip_prefix (lstrip s)) as [b Hb].
  exists a, b. by rewrite <- Hb.
Qed.

Lemma slice_infix s start stop : exists a b, s = a ++ slice s start stop ++ b.
Proof.
  unfold slice. exists (take (Z.to_nat start) s),
    (drop (Z.to_nat (stop - start)) (drop (Z.to_nat start) s)).
  by rewrite !take_drop.
Qed.

Lemma lstrip_head s c : head (lstrip s) = Some c -> isspace c = false.
Proof.
  induction s as [|d s IH]; simpl; [done|].
  destruct (isspace d) eqn:Hd; [done|]. simpl. by intros [= <-].
Qed.

Lemma lstrip_snoc s c :
  isspace c = false -> lstrip (s ++ [c]) = lstrip s ++ [c].
Proof.
  intros Hc. induction s as [|d s IH]; simpl; [by rewrite Hc|].
  by destruct (isspace d).
Qed.

Lemma last_rev (s : str) : last (rev s) = head s.
Proof. destruct s as [|c s]; [done|]. simpl. by rewrite last_snoc. Qed.

Lemma head_rev (s : str) : head (rev s) = last s.
Proof. rewrite <- (rev_involutive s) at 2. by rewrite last_rev. Qed.

Lemma strip_ends s :
  (forall c, head (strip s) = Some c -> isspace c = false) /\
  (forall c, last (strip s) = Some c -> isspace c = false).
Proof.
  unfold strip, rstrip. split; intros c.
  - pose proof (lstrip_head s) as Hh.
    destruct (lstrip s) as [|d t]; [done|].
    specialize (Hh d eq_refl). simpl rev.
    rewrite lstrip_snoc by done. rewrite rev_app_distr. simpl.
    by intros [= <-].
  - rewrite last_rev. apply lstrip_head.
Qed.

Lemma extract_code_infix (response : str) :
  exists before after, response = before ++ extract_code response ++ after.
Proof.
  unfold extract_code.
  destruct (contains FENCE_RUST response);
    [|exists [], []; by rewrite app_nil_r].
  cbn zeta. destruct (_ >? _); [|exists [], []; by rewrite app_nil_r].
  set (start := find FENCE_RUST response 0 + 7).
  destruct (slice_infix response start (find FENCE response start))
    as (a & b & Hs).
  destruct (strip_infix (slice response start (find FENCE response start)))
    as (a' & b' & Hst).
  exists (a ++ a'), (b' ++ b).
  rewrite Hs at 1. rewrite Hst at 1. by rewrite <- !app_assoc.
Qed.

Lemma extract_code_ends (response : str) :
  extract_code response = response
  \/ (from_option isspace false (head (extract_code response)) = false
      /\ from_option isspace false (last (extract_code response)) = false).
Proof.
  unfold extract_code.
  destruct (contains FENCE_RUST response); [|by left]. cbn zeta.
  destruct (_ >? _); [|by left]. right.
  destruct (strip_ends
              (slice response (find FENCE_RUST response 0 + 7)
                 (find FENCE response (find FENCE_RUST response 0 + 7))))
    as [Hh Hl].
  split.
  - destruct (head _) as [c|]; [|done]. by apply Hh.
  - destruct (last _) as [c|]; [|done]. by apply Hl.
Qed.

(** X3 (the generated code comes from the answer).  When
    [call_github_models_api] returns, a token was set, the service has
    answered, and the code returned is a contiguous part of the answer; it is
    the whole answer, or it neither starts nor ends with white space.  In
    every other case the process ends with exit code 1. *)
Theorem generated_code_from_answer (token : option str)
    (api : generate_tests_main.api_outcome) :
  (exists t content before after,
     token = Some t /\ t <> [] /\
     api = generate_tests_main.Answer content /\
     generate_tests_main.call_github_models_api token api
     = Ok (extract_code content) /\
     content = before ++ extract_code content ++ after /\
     (extract_code content = content \/
      (from_option isspace false (head (extract_code content)) = false /\
       from_option isspace false (last (extract_code content)) = false)))
  \/ (exists e,
        generate_tests_main.call_github_models_api token api = Raise e /\
        exit_code (generate_tests_main.call_github_models_api token api) = 1).
Proof.
  unfold generate_tests_main.call_github_models_api.
  destruct token as [[|c t]|]; [right; by eexists| |right; by eexists].
  destruct api as [content| |]; [|right; by eexists|right; by eexists].
  left. destruct (extract_code_infix content) as (before & after & Hc).
  exists (c :: t), content, before, after.
  split; [done|]. split; [done|]. split; [done|]. split; [done|].
  split; [exact Hc|]. apply extract_code_ends.
Qed.

(** ** Further properties of the coverage statistics
       (analyze_coverage.py, generate_report.py) *)

Lemma find_file_coverage_first files target :
  find_file_coverage files target
  = (fun fd => (entry_of fd).2) <$> head (filter (matches target) files).
Proof.
  induction files as [|fd files IH]; [done|].
  cbn [find_file_coverage]. rewrite filter_cons.
  unfold matches, entry_of, name_of, line_total, line_covered, lines_of in *.
  destruct (decide (default [] (fd_filename fd) = target)) as [Hn|Hn].
  - rewrite (bool_decide_eq_true_2 _ Hn). simpl.
    destruct (_ >? 0) eqn:Ht; simpl; [done|]. apply IH.
  - rewrite (bool_decide_eq_false_2 _ Hn). simpl. apply IH.
Qed.

Lemma matches_of_eligible target fd :
  eligible fd = true -> matches target fd = named target (entry_of fd).
Proof.
  unfold eligible, matches, named. intros [_ ->]%andb_true_iff.
  by rewrite andb_true_r.
Qed.

Lemma matches_not_eligible target fd :
  skipped target = false -> eligible fd = false -> matches target fd = false.
Proof.
  unfold eligible, matches. intros Hs He.
  destruct (bool_decide (name_of fd = target)) eqn:Hn; [|done].
  apply bool_decide_eq_true in Hn. rewrite Hn, Hs in He. exact He.
Qed.

Lemma filter_cons_bool {A} (f : A -> bool) (x : A) (l : list A) :
  filter f (x :: l) = if f x then x :: filter f l else filter f l.
Proof. rewrite filter_cons. by destruct (f x). Qed.

Lemma filter_named_eligible (files : list file_data) target :
  skipped target = false ->
  filter (named target) (entry_of <$> filter eligible files)
  = entry_of <$> filter (matches target) files.
Proof.
  intros Hs. induction files as [|fd files IH]; [done|].
  rewrite (filter_cons_bool eligible), (filter_cons_bool (matches target)).
  destruct (eligible fd) eqn:He.
  - rewrite (matches_of_eligible target fd He), fmap_cons.
    rewrite (filter_cons_bool (named target)).
    destruct (named target (entry_of fd)); by rewrite ?fmap_cons, IH.
  - by rewrite (matches_not_eligible target fd Hs He).
Qed.

Lemma find_file_coverage_named (files : list file_data) target :
  skipped target = false ->
  find_file_coverage files target
  = snd <$> head (filter (named target) (entry_of <$> filter eligible files)).
Proof.
  intros Hs. rewrite find_file_coverage_first, filter_named_eligible by done.
  by destruct (filter (matches target) files).
Qed.


(** X5 (the lookup agrees with the analyzer).  For a file name that passes
    the filter on names, [get_file_coverage_from_data] returns the statistics
    of the first entry of that name in the output of
    [extract_file_coverage] on the same report, and [None] when there is no
    such entry. *)
Theorem get_file_coverage_agrees_with_extraction cd file_stats target :
  extract_file_coverage cd = Ok file_stats ->
  skipped target = false ->
  get_file_coverage_from_data cd target
  = Ok (snd <$> head (filter (named target) file_stats)).
Proof.
  intros (files & Hf & ->)%extract_file_coverage_Ok Hs.
  unfold get_file_coverage_from_data. rewrite Hf. simpl.
  by rewrite find_file_coverage_named.
Qed.








Lemma entry_of_eligible e (files : list file_data) :
  e ∈ entry_of <$> filter eligible files ->
  skipped e.1.1 = false /\ 0 < st_total e.2 /\ st_coverage e.2 = pct e
  /\ pct e = percent (st_covered e.2) (st_total e.2).
Proof.
  intros (fd & -> & Hfd)%list_elem_of_fmap.
  apply list_elem_of_filter in Hfd as [He _].
  unfold eligible in He. apply Is_true_true, andb_true_iff in He as [Hs Ht].
  apply negb_true_iff in Hs. apply Z.gtb_lt in Ht. by simpl.
Qed.

Lemma analyzer_main_Ok cd (stats : list entry) e rest :
  extract_file_coverage cd = Ok stats ->
  sorted stats = e :: rest ->
  analyze_coverage.main cd
  = Ok (Analysis e.1.1 (st_coverage e.2) e.2,
        {| total_files := Z.of_nat (length stats);
           average_coverage :=
             (sum (map (fun x : entry => x.1.2) stats)
              / Qc_of_Z (Z.of_nat (length stats)))%Qc |}).
Proof.
  intros Hex Hs. unfold analyze_coverage.main. rewrite Hex.
  destruct stats as [|e0 stats']; [done|].
  cbn [mbind res_bind]. unfold find_least_covered_file. rewrite Hs.
  by destruct e as [[filename p] st].
Qed.

Lemma analyzer_main_inv cd analysis overall :
  analyze_coverage.main cd = Ok (analysis, overall) ->
  exists stats, extract_file_coverage cd = Ok stats /\ stats <> [].
Proof.
  unfold analyze_coverage.main.
  destruct (extract_file_coverage cd) as [stats|]; [|done].
  destruct stats; [done|]. intros _. by eexists.
Qed.

(** X6 (what the analyzer writes).  When [main] of the analyzer writes its
    two documents, the file it names is one of the entries of
    [extract_file_coverage]: its name passes the filter on names, the
    statistics written are those of the entry, with [total > 0], the
    [coverage] written beside them is the one inside them, and
    [total_files] is the number of entries, at least 1. *)
Theorem analyzer_main_selection cd analysis overall :
  analyze_coverage.main cd = Ok (analysis, overall) ->
  exists file_stats e,
    extract_file_coverage cd = Ok file_stats /\
    e ∈ file_stats /\
    a_file analysis = e.1.1 /\
    a_stats analysis = e.2 /\
    a_coverage analysis = st_coverage (a_stats analysis) /\
    skipped (a_file analysis) = false /\
    0 < st_total (a_stats analysis) /\
    total_files overall = Z.of_nat (length file_stats) /\
    1 <= total_files overall.
Proof.
  intros Hmain.
  destruct (analyzer_main_inv _ _ _ Hmain) as (stats & Hex & Hne).
  pose proof Hex as (files & Hf & Hst)%extract_file_coverage_Ok.
  destruct (sorted_head stats Hne) as (l1 & e & l2 & rest & Heq & Hs & H1 & H2).
  rewrite (analyzer_main_Ok _ _ _ _ Hex Hs) in Hmain.
  injection Hmain as <- <-. cbn [a_file a_coverage a_stats total_files
                                  average_coverage].
  assert (e ∈ stats) as Hin'.
  { rewrite Heq. apply elem_of_app. right. left. }
  assert (e ∈ entry_of <$> filter eligible files) as Hin by (by rewrite <- Hst).
  destruct (entry_of_eligible e files Hin) as (Hsk & Ht & Hc & _).
  exists stats, e. repeat split; try done.
  destruct stats; [done | simpl length; lia].
Qed.



(** X8 (names kept by the analyzer).  The names in the output of
    [extract_file_coverage] are names of the report, in the order of the
    report, and each of them ends in [.rs], holds neither [target/] nor
    [.cargo/] nor [/tests/], and does not end in [_test.rs]. *)
Theorem extract_file_coverage_names cd file_stats :
  extract_file_coverage cd = Ok file_stats ->
  exists files,
    files_of cd = Ok files /\
    (fun e : entry => e.1.1) <$> file_stats `sublist_of` name_of <$> files /\
    Forall (fun e : entry =>
              endswith (lit ".rs") e.1.1 = true /\
              contains (lit "target/") e.1.1 = false /\
              contains (lit ".cargo/") e.1.1 = false /\
              contains (lit "/tests/") e.1.1 = false /\
              endswith (lit "_test.rs") e.1.1 = false) file_stats.
Proof.
  intros (files & Hf & ->)%extract_file_coverage_Ok.
  exists files. split; [done|]. split.
  - rewrite <- list_fmap_compose.
    change ((fun e : entry => e.1.1) ∘ entry_of) with name_of.
    apply fmap_sublist, sublist_filter.
  - apply Forall_forall. intros e He.
    apply entry_of_eligible in He as (Hsk & _).
    unfold skipped in Hsk.
    destruct (endswith (lit ".rs") e.1.1); simpl in Hsk; [|done].
    destruct (contains (lit "target/") e.1.1); simpl in Hsk; [done|].
    destruct (contains (lit ".cargo/") e.1.1); simpl in Hsk; [done|].
    destruct (contains (lit "/tests/") e.1.1); simpl in Hsk; [done|].
    by destruct (endswith (lit "_test.rs") e.1.1).
Qed.



Lemma filter_named_unique (l1 l2 : list entry) e :
  NoDup ((fun x : entry => x.1.1) <$> l1 ++ e :: l2) ->
  head (filter (named e.1.1) (l1 ++ e :: l2)) = Some e.
Proof.
  intros Hnd. rewrite fmap_app, fmap_cons in Hnd.
  apply NoDup_app in Hnd as (_ & Hdis & _).
  assert (filter (named e.1.1) l1 = []) as Hl1.
  { induction l1 as [|x l1 IH]; [done|].
    rewrite filter_cons_bool.
    destruct (named e.1.1 x) eqn:Hx.
    - exfalso. apply bool_decide_eq_true in Hx.
      apply (Hdis x.1.1); [rewrite fmap_cons; left|]. rewrite Hx. left.
    - apply IH. intros y Hy. apply Hdis. rewrite fmap_cons. by right. }
  rewrite filter_app, Hl1, filter_cons_bool. simpl.
  unfold named at 1. by rewrite bool_decide_eq_true_2.
Qed.

(** X10 (an unchanged report shows no change of the file).  If the report
    stage measures the very report the analyzer has seen, the names of the
    ranked files being pairwise different, then the statistics of the target
    file after the change are the ones the analyzer wrote, the improvements
    of the file, in percentage and in covered lines, are 0, and the number
    of files analysed is the same before and after. *)
Theorem report_main_unchanged_report cd analysis overall md file_stats :
  analyze_coverage.main cd = Ok (analysis, overall) ->
  extract_file_coverage cd = Ok file_stats ->
  NoDup ((fun x : entry => x.1.1) <$> file_stats) ->
  original_file md = Some (a_file analysis) ->
  exists ds,
    generate_report_main.main (Some md) (Some analysis) (Some overall)
      (generate_report_main.Measured cd) = Ok ds /\
    generate_report_main.after_file ds = a_stats analysis /\
    generate_report_main.file_coverage (generate_report_main.improvements ds)
    = 0%Qc /\
    generate_report_main.lines_covered (generate_report_main.improvements ds)
    = 0 /\
    total_files (generate_report_main.after_overall ds) = total_files overall.
Proof.
  intros Hmain Hex Hnd Ht.
  destruct (analyzer_main_inv _ _ _ Hmain) as (stats & Hex' & Hne).
  rewrite Hex in Hex'. injection Hex' as <-.
  pose proof Hex as (files & Hf & Hst)%extract_file_coverage_Ok.
  destruct (sorted_head file_stats Hne)
    as (l1 & e & l2 & rest & Heq & Hs & _ & _).
  rewrite (analyzer_main_Ok _ _ _ _ Hex Hs) in Hmain.
  injection Hmain as <- <-. cbn [a_file a_stats] in *.
  assert (e ∈ entry_of <$> filter eligible files) as Hin.
  { rewrite <- Hst, Heq. apply elem_of_app. right. left. }
  destruct (entry_of_eligible e files Hin) as (Hsk & _).
  assert (get_file_coverage_from_data cd e.1.1 = Ok (Some e.2)) as Hg.
  { unfold get_file_coverage_from_data. rewrite Hf. simpl.
    rewrite find_file_coverage_named, <- Hst by done.
    rewrite Heq in Hnd |- *. by rewrite filter_named_unique. }
  assert (calculate_overall_coverage cd
          = Ok {| total_files := Z.of_nat (length file_stats);
                  average_coverage :=
                    (sum (map (fun x : entry => x.1.2) file_stats)
                     / Qc_of_Z (Z.of_nat (length file_stats)))%Qc |}) as Ho.
  { rewrite (calculate_overall_coverage_spec _ _ Hf), <- Hst.
    destruct file_stats; [done|]. reflexivity. }
  unfold generate_report_main.main. rewrite Ht. simpl. rewrite Hg. simpl.
  rewrite Ho. simpl. eexists. split; [reflexivity|]. simpl.
  split; [done|]. split; [apply Qcplus_opp_r|]. split; [lia|done].
Qed.

(** ** Further properties of the validation (validate_tests.py) *)

Lemma staged_frame (o : oracle) (test orig : str) (fs1 : gmap str content)
    (p : str) :
  p <> orig -> (staged o test orig fs1).2 !! p = fs1 !! p.
Proof.
  intros Hp. unfold staged. destruct (fs1 !! test); [|done].
  destruct (decide (test = orig)); [done|]. simpl.
  by rewrite lookup_insert_ne.
Qed.

Lemma validate_tests_files_frame (o : oracle) (test orig : str) (w : world)
    (p : str) :
  p <> orig -> p <> backup_of orig ->
  files (validate_tests o test orig w).2 !! p = files w !! p.
Proof.
  intros Hp Hb. destruct (files w !! orig) as [c0|] eqn:Ho.
  - rewrite (validate_tests_unfold _ _ _ _ _ Ho). simpl.
    rewrite lookup_delete_ne by done.
    destruct (success w).
    + rewrite staged_frame by done. by rewrite lookup_insert_ne.
    + rewrite lookup_insert_ne by done.
      rewrite staged_frame by done. by rewrite lookup_insert_ne.
  - by rewrite (validate_tests_missing _ _ _ _ Ho).
Qed.

(** X11 (a call touches two paths).  A call of [validate_tests] changes no
    file other than the original and its backup path, and it changes
    neither the metadata file nor [validate_tests.success]. *)
Theorem validate_tests_touches_two_paths (o : oracle) (test orig : str)
    (w : world) :
  (forall p : str, p <> orig -> p <> backup_of orig ->
     files (validate_tests o test orig w).2 !! p = files w !! p)
  /\ metadata_file (validate_tests o test orig w).2 = metadata_file w
  /\ success (validate_tests o test orig w).2 = success w.
Proof.
  split; [|by destruct (validate_tests_frame o test orig w) as (? & ? & _)].
  intros p. apply validate_tests_files_frame.
Qed.

Lemma passes_iff o :
  passes o = true <-> cargo_check o = Completed 0 /\ cargo_test o = Completed 0.
Proof.
  unfold passes. destruct o as [[[| |]| |] [[| |]| |]]; simpl;
    split; try done; by intros [? ?].
Qed.

Lemma validate_tests_Ok (o : oracle) (test orig : str) (w : world) :
  is_Some (files w !! orig) ->
  exists b, (validate_tests o test orig w).1 = Ok b.
Proof.
  intros [c0 Ho]. rewrite (validate_tests_unfold _ _ _ _ _ Ho). by eexists.
Qed.

Lemma validate_tests_true_iff (o : oracle) (test orig : str) (w : world) :
  (validate_tests o test orig w).1 = Ok true <->
    is_Some (files w !! orig) /\ test <> orig /\
    (test = backup_of orig \/ is_Some (files w !! test)) /\
    cargo_check o = Completed 0 /\ cargo_test o = Completed 0.
Proof.
  destruct (files w !! orig) as [c0|] eqn:Ho.
  - rewrite (validate_tests_unfold _ _ _ _ _ Ho). simpl.
    rewrite <- passes_iff. unfold staged.
    destruct (decide (backup_of orig = test)) as [<-|Hb].
    + rewrite lookup_insert_eq.
      destruct (decide (backup_of orig = orig)) as [He|Hne]; simpl.
      * by apply backup_of_ne in He.
      * split.
        -- intros [= ->]. repeat split; eauto.
        -- by intros (_ & _ & _ & ->).
    + rewrite lookup_insert_ne by done.
      destruct (files w !! test) as [c|] eqn:Ht.
      * destruct (decide (test = orig)) as [->|Hto]; simpl.
        -- split; [done|]. by intros (_ & ? & _).
        -- split.
           ++ intros [= ->]. repeat split; eauto.
           ++ by intros (_ & _ & _ & ->).
      * simpl. split; [done|].
        intros (_ & _ & [Heq|[? ?]] & _); [by symmetry in Heq | done].
  - rewrite (validate_tests_missing _ _ _ _ Ho). simpl.
    split; [done|]. by intros ([? ?] & _).
Qed.

Lemma validate_tests_backup_removed (o : oracle) (test orig : str) (w : world) :
  is_Some (files w !! orig) ->
  files (validate_tests o test orig w).2 !! backup_of orig = None.
Proof.
  intros [c0 Ho]. rewrite (validate_tests_unfold _ _ _ _ _ Ho). simpl.
  apply lookup_delete_eq.
Qed.

(** X12 (result of a call).  A call of [validate_tests] raises only when
    the original file is missing, and then it has changed nothing.
    Otherwise it returns a boolean, and it returns [True] exactly when the
    candidate path is not the original path, a file is at the candidate path
    once the backup is made, and both [cargo check] and [cargo test] end
    with return code 0: a time-out, a command that cannot be started, a
    return code other than 0 or a missing candidate all give [False]. *)
Theorem validate_tests_result (o : oracle) (test orig : str) (w : world) :
  (files w !! orig = None ->
     validate_tests o test orig w = (Raise FileNotFoundError, w))
  /\ (is_Some (files w !! orig) ->
        exists b, (validate_tests o test orig w).1 = Ok b)
  /\ ((validate_tests o test orig w).1 = Ok true <->
        is_Some (files w !! orig) /\ test <> orig /\
        (test = backup_of orig \/ is_Some (files w !! test)) /\
        cargo_check o = Completed 0 /\ cargo_test o = Completed 0).
Proof.
  split; [apply validate_tests_missing|].
  split; [apply validate_tests_Ok | apply validate_tests_true_iff].
Qed.

(** X13 (no backup left behind).  Whatever the two cargo commands do, a
    call of [validate_tests] that finds the original file ends with no file
    at the backup path. *)
Theorem validate_tests_removes_backup (o : oracle) (test orig : str)
    (w : world) :
  is_Some (files w !! orig) ->
  files (validate_tests o test orig w).2 !! backup_of orig = None.
Proof.
  intros [c0 Ho].
  rewrite (validate_tests_unfold o test orig w c0 Ho). cbn zeta.
  destruct (success w); simpl; apply lookup_delete_eq.
Qed.


Section driver_extras.
Variable oracles : Z -> oracle.
Variable md : metadata.
Variables test orig : str.


Lemma attempt_loop_exit_zero range : forall w,
  success w = false ->
  (attempt_loop oracles md test orig range w).1 = Raise (SystemExit 0) ->
  test <> backup_of orig /\
  exists n a c,
    range !! n = Some a /\ passes (oracles a) = true /\
    history (attempt_loop oracles md test orig range w).2
      !! (length (history w) + n)%nat = Some c /\
    call_result c = Ok true.
Proof.
  induction range as [|a rest IH]; intros w Hf; [done|].
  rewrite attempt_loop_cons. cbn zeta.
  pose proof (validate_tests_frame (oracles a) test orig w) as (Hm & Hs & Hh).
  pose proof (validate_tests_missing (oracles a) test orig w) as Hmiss.
  pose proof (validate_tests_Ok (oracles a) test orig w) as Hok.
  pose proof (validate_tests_true_iff (oracles a) test orig w) as Htrue.
  pose proof (validate_tests_backup_removed (oracles a) test orig w) as Hrm.
  destruct (validate_tests (oracles a) test orig w) as [r w0] eqn:Hv.
  simpl in *. destruct r as [[]|e].
  - destruct (proj1 Htrue eq_refl) as (Ho & Hto & _ & Hc1 & Hc2).
    specialize (Hrm Ho).
    pose proof (copy2_history test orig
                  (with_success true (after_call test orig (Ok true) w w0)))
      as H2.
    unfold copy2 in *. simpl in *.
    destruct (files w0 !! test) as [cc|] eqn:Ht; [|done].
    destruct (decide (test = orig)); [done|]. simpl in *. intros _.
    split; [intros ->; congruence|].
    exists 0%nat, a, (Call test orig (success w) (files w) (files w0) (Ok true)).
    split; [done|]. split; [by apply passes_iff|]. split; [|done].
    rewrite Hh, lookup_app_r by lia.
    by replace (length (history w) + 0 - length (history w))%nat with 0%nat
      by lia.
  - intros Hex.
    destruct (IH (with_success false (after_call test orig (Ok false) w w0)))
      as (Hb & n & b & c & Hn & Hp & Hl & Hr); [done|done|].
    split; [done|]. exists (S n), b, c. split; [done|]. split; [done|].
    split; [|done]. simpl in Hl. rewrite length_app, Hh in Hl. simpl in Hl.
    by replace (length (history w) + S n)%nat
      with (length (history w) + 1 + n)%nat by lia.
  - simpl. intros [= ->].
    destruct (files w !! orig) as [c0|] eqn:Ho.
    + destruct Hok as [b Hb]; [by eexists|]. done.
    + specialize (Hmiss eq_refl). congruence.
Qed.
End driver_extras.

(** X14 (exit code 0 is earned).  If [main] of the validator ends with exit
    code 0, then the metadata named both paths, the attempt [N] at which it
    stopped, 1 to 3, is one whose [cargo check] and [cargo test] both ended
    with return code 0, exactly [N] calls of [validate_tests] were made, the
    original path holds what the candidate path held at the start, and the
    metadata written records success at attempt [N]. *)
Theorem main_exit_zero_sound oracles fs mf :
  exit_code (main oracles (initial fs mf)).1 = 0 ->
  exists md (test orig : str) (N : nat),
    mf = Some md /\ generated_tests_path md = Some test /\
    original_file md = Some orig /\
    (1 <= N <= 3)%nat /\
    cargo_check (oracles (Z.of_nat N)) = Completed 0 /\
    cargo_test (oracles (Z.of_nat N)) = Completed 0 /\
    length (history (main oracles (initial fs mf)).2) = N /\
    is_Some (fs !! test) /\
    files (main oracles (initial fs mf)).2 !! orig = fs !! test /\
    metadata_file (main oracles (initial fs mf)).2
    = Some (record_result md true (Z.of_nat N)).
Proof.
  destruct mf as [md|]; [|by rewrite main_early; [|left]].
  destruct (generated_tests_path md) as [test|] eqn:Ht.
  2:{ unfold main, mbind, M_bind, load_metadata. simpl. by rewrite Ht. }
  destruct (original_file md) as [orig|] eqn:Ho.
  2:{ unfold main, mbind, M_bind, load_metadata. simpl. by rewrite Ht, Ho. }
  rewrite (main_unfold _ _ md test orig) by done.
  pose proof (attempt_loop_exit_zero oracles md test orig [1; 2; 3]
                (initial fs (Some md)) eq_refl) as Hz.
  pose proof (attempt_loop_success oracles md test orig [1; 2; 3]
                (initial fs (Some md))) as Hsucc.
  destruct (attempt_loop oracles md test orig [1; 2; 3] (initial fs (Some md)))
    as [[[]|e] w'] eqn:Hloop; simpl in *; [done|].
  intros He.
  assert (e = SystemExit 0) as -> by (destruct e; simpl in He; congruence).
  destruct (Hz eq_refl) as (Hb & n & a & c & Hn & Hp & Hl & Hr).
  destruct (Hsucc n c eq_refl Hb Hl Hr) as (a' & Hn' & _ & Hsome & Hfile & Hmeta & Hlen).
  rewrite Hn in Hn'. injection Hn' as <-.
  apply passes_iff in Hp as [Hc1 Hc2].
  exists md, test, orig, (S n).
  assert (a = Z.of_nat (S n) /\ (n < 3)%nat) as [-> Hn3].
  { destruct n as [|[|[|n]]]; simpl in Hn; try done;
      injection Hn as <-; split; lia. }
  repeat split; auto with lia.
Qed.


(** ** The generator and the validator together *)

Lemma output_path_not_backup (p : str) :
  generate_tests_main.OUTPUT_PATH <> backup_of p.
Proof.
  intros H. apply (f_equal (@last N)) in H.
  unfold backup_of in H.
  change (lit ".backup") with (lit ".backu" ++ [112%N]) in H.
  rewrite app_assoc, last_snoc in H. vm_compute in H. discriminate.
Qed.

Lemma generator_main_outcome (i : generate_tests_main.inputs) :
  (exists analysis file_content token content,
     generate_tests_main.analysis_file i = Some analysis /\
     generate_tests_main.read_file_content i (a_file analysis)
     = Some file_content /\
     generate_tests_main.github_token i = Some token /\ token <> [] /\
     generate_tests_main.api i = generate_tests_main.Answer content /\
     generate_tests_main.main i
     = Ok {| generate_tests_main.updated_file :=
               integrate_tests_into_file file_content (extract_code content);
             generate_tests_main.metadata_written :=
               {| original_file := Some (a_file analysis);
                  generated_tests_path :=
                    Some generate_tests_main.OUTPUT_PATH;
                  coverage_before := Some (st_coverage (a_stats analysis));
                  validation_success := None;
                  validation_attempts := None |} |})
  \/ (exists e, generate_tests_main.main i = Raise e /\
        exit_code (generate_tests_main.main i) = 1).
Proof.
  unfold generate_tests_main.main.
  destruct (generate_tests_main.analysis_file i) as [analysis|];
    [|right; by eexists].
  destruct (generate_tests_main.read_file_content i (a_file analysis))
    as [file_content|] eqn:Hr; [|right; by eexists].
  unfold generate_tests_main.call_github_models_api.
  destruct (generate_tests_main.github_token i) as [[|t token]|];
    [right; by eexists| |right; by eexists].
  destruct (generate_tests_main.api i) as [content| |];
    [|right; by eexists|right; by eexists].
  left. exists analysis, file_content, (t :: token), content.
  repeat split; auto.
Qed.

(** X16 (success on a generated candidate).  For metadata written by
    [main] of the generator, whose candidate path is always
    [/tmp/updated_file.rs], a run of the validator in which the [k]-th call
    of [validate_tests] returns [True] ends with the original path holding
    the candidate, the metadata recording success at attempt [k], and exit
    code 0. *)
Theorem generated_candidate_validated
    (i : generate_tests_main.inputs) (out : generate_tests_main.outputs)
    (oracles : Z -> oracle) (fs : gmap str content) (k : nat) (c : call) :
  generate_tests_main.main i = Ok out ->
  let md := generate_tests_main.metadata_written out in
  let run := main oracles (initial fs (Some md)) in
  (1 <= k)%nat ->
  history run.2 !! (k - 1)%nat = Some c ->
  call_result c = Ok true ->
  exists orig : str,
    original_file md = Some orig
    /\ generated_tests_path md = Some generate_tests_main.OUTPUT_PATH
    /\ files run.2 !! orig = fs !! generate_tests_main.OUTPUT_PATH
    /\ is_Some (fs !! generate_tests_main.OUTPUT_PATH)
    /\ metadata_file run.2 = Some (record_result md true (Z.of_nat k))
    /\ run.1 = Raise (SystemExit 0).
Proof.
  intros Hgen md run Hk Hl Hres. subst run.
  destruct (generator_main_outcome i)
    as [(analysis & fc & tok & content & _ & _ & _ & _ & _ & Hm)|(e & He & _)];
    [|congruence].
  rewrite Hgen in Hm. injection Hm as ->.
  set (orig := a_file analysis) in *.
  exists orig. split; [done|]. split; [done|]. revert Hl.
  rewrite (main_unfold _ _ md generate_tests_main.OUTPUT_PATH orig) by done.
  pose proof (attempt_loop_success oracles md generate_tests_main.OUTPUT_PATH
                orig [1; 2; 3] (initial fs (Some md)) (k - 1)%nat c eq_refl
                (output_path_not_backup orig)) as Hs.
  destruct (attempt_loop _ _ _ _ _ _) as [[[]|e] w'] eqn:Hloop; simpl in *;
    intros Hl; destruct (Hs Hl Hres) as (a & Ha & H1 & H2 & H3 & H4 & _);
    [done|].
  assert (a = Z.of_nat k) as ->.
  { destruct k as [|[|[|[|k]]]]; simpl in Ha; try lia;
      try (injection Ha as <-; lia).
    replace (S (S (S (S k))) - 1)%nat with (S (S (S k))) in Ha by lia. done. }
  repeat split; auto.
Qed.

(** ** The further properties on the concrete inputs *)


Lemma get_file_coverage_agrees_with_extraction_witness :
  get_file_coverage_from_data scenario_A (lit "src/b.rs")
  = Ok (snd <$> head (filter (named (lit "src/b.rs"))
                        [entry_of file_a; entry_of file_b])).
Proof.
  apply (get_file_coverage_agrees_with_extraction scenario_A
           [entry_of file_a; entry_of file_b] (lit "src/b.rs")).
  - vm_compute. reflexivity.
  - vm_compute. reflexivity.
Defined.

Lemma analyzer_main_selection_witness :
  exists file_stats e,
    extract_file_coverage scenario_A = Ok file_stats /\
    e ∈ file_stats /\
    a_file analysis_of_b = e.1.1 /\
    a_stats analysis_of_b = e.2 /\
    a_coverage analysis_of_b = st_coverage (a_stats analysis_of_b) /\
    skipped (a_file analysis_of_b) = false /\
    0 < st_total (a_stats analysis_of_b) /\
    total_files overall_of_A = Z.of_nat (length file_stats) /\
    1 <= total_files overall_of_A.
Proof.
  apply (analyzer_main_selection scenario_A analysis_of_b overall_of_A).
  vm_compute. reflexivity.
Defined.


Lemma extract_file_coverage_names_witness :
  exists files,
    files_of scenario_A = Ok files /\
    (fun e : entry => e.1.1) <$> [entry_of file_a; entry_of file_b]
      `sublist_of` name_of <$> files /\
    Forall (fun e : entry =>
              endswith (lit ".rs") e.1.1 = true /\
              contains (lit "target/") e.1.1 = false /\
              contains (lit ".cargo/") e.1.1 = false /\
              contains (lit "/tests/") e.1.1 = false /\
              endswith (lit "_test.rs") e.1.1 = false)
      [entry_of file_a; entry_of file_b].
Proof.
  apply (extract_file_coverage_names scenario_A).
  vm_compute. reflexivity.
Defined.


Lemma report_main_unchanged_report_witness :
  exists ds,
    generate_report_main.main (Some metadata_of_b) (Some analysis_of_b)
      (Some overall_of_A) (generate_report_main.Measured scenario_A) = Ok ds /\
    generate_report_main.after_file ds = a_stats analysis_of_b /\
    generate_report_main.file_coverage (generate_report_main.improvements ds)
    = 0%Qc /\
    generate_report_main.lines_covered (generate_report_main.improvements ds)
    = 0 /\
    total_files (generate_report_main.after_overall ds)
    = total_files overall_of_A.
Proof.
  apply (report_main_unchanged_report scenario_A analysis_of_b overall_of_A
           metadata_of_b [entry_of file_a; entry_of file_b]).
  - vm_compute. reflexivity.
  - vm_compute. reflexivity.
  - apply (bool_decide_unpack _). vm_compute. exact I.
  - reflexivity.
Defined.

Lemma validate_tests_touches_two_paths_witness :
  files (validate_tests all_green candidate_path target_path
           (initial disk None)).2 !! candidate_path
  = Some candidate_bytes.
Proof.
  rewrite (proj1 (validate_tests_touches_two_paths all_green candidate_path
                    target_path (initial disk None)) candidate_path).
  - vm_compute. reflexivity.
  - vm_compute. discriminate.
  - vm_compute. discriminate.
Defined.

Lemma validate_tests_result_witness :
  (validate_tests all_green candidate_path target_path (initial disk None)).1
  = Ok true.
Proof.
  apply (proj2 (proj2 (validate_tests_result all_green candidate_path
                         target_path (initial disk None)))).
  split; [exists original_bytes; vm_compute; reflexivity|].
  split; [vm_compute; discriminate|].
  split; [right; exists candidate_bytes; vm_compute; reflexivity|].
  split; reflexivity.
Defined.

Lemma validate_tests_removes_backup_witness :
  files (validate_tests check_fails candidate_path target_path
           (initial disk None)).2 !! backup_of target_path = None.
Proof.
  apply (validate_tests_removes_backup check_fails candidate_path target_path
           (initial disk None)).
  exists original_bytes. vm_compute. reflexivity.
Defined.

Lemma main_exit_zero_sound_witness :
  exists md (test orig : str) (N : nat),
    Some generated_metadata = Some md /\ generated_tests_path md = Some test /\
    original_file md = Some orig /\
    (1 <= N <= 3)%nat /\
    cargo_check (scenario_D (Z.of_nat N)) = Completed 0 /\
    cargo_test (scenario_D (Z.of_nat N)) = Completed 0 /\
    length (history (main scenario_D
                       (initial disk (Some generated_metadata))).2) = N /\
    is_Some (disk !! test) /\
    files (main scenario_D (initial disk (Some generated_metadata))).2 !! orig
    = disk !! test /\
    metadata_file (main scenario_D (initial disk (Some generated_metadata))).2
    = Some (record_result md true (Z.of_nat N)).
Proof.
  apply (main_exit_zero_sound scenario_D disk (Some generated_metadata)).
  vm_compute. reflexivity.
Defined.


Lemma generated_candidate_validated_witness :
  exists out,
    generate_tests_main.main generator_inputs = Ok out /\
    let md := generate_tests_main.metadata_written out in
    let run := main scenario_D (initial disk (Some md)) in
    exists orig : str,
      original_file md = Some orig
      /\ generated_tests_path md = Some generate_tests_main.OUTPUT_PATH
      /\ files run.2 !! orig = disk !! generate_tests_main.OUTPUT_PATH
      /\ is_Some (disk !! generate_tests_main.OUTPUT_PATH)
      /\ metadata_file run.2 = Some (record_result md true (Z.of_nat 3))
      /\ run.1 = Raise (SystemExit 0).
Proof.
  eexists. split; [vm_compute; reflexivity|].
  eapply (generated_candidate_validated generator_inputs _ scenario_D disk
            3%nat (Call candidate_path target_path false disk disk (Ok true))).
  - vm_compute. reflexivity.
  - lia.
  - vm_compute. reflexivity.
  - reflexivity.
Defined.
